(** * simple_camio: pose tracking and interaction pipeline

    A shallow embedding of [simple_camio.py].  Python floats are idealised
    as real numbers, numpy arrays as lists updated by index, and exceptions
    as the [Raise] branch of the result type [py]. *)

From Stdlib Require Import Reals Lra ZArith Lia RNsatz.
From stdpp Require Import base list sorting strings.

(** ** Python results *)

Inductive exn : Set := IndexError | TypeError | ValueError | LinAlgError | CvError.

Inductive py (A : Type) : Type :=
| Ok (a : A)
| Raise (e : exn).
Arguments Ok {A} a.
Arguments Raise {A} e.

(** Sequencing stops at the first exception; this gives [py] the
    [x ← m; k] notation. *)
#[global] Instance py_ret : MRet py := λ A a, Ok a.
#[global] Instance py_bind : MBind py := λ A B k m,
  match m with
  | Ok a => k a
  | Raise e => Raise e
  end.

(** ** Points and marker observations *)

Definition pt2 : Type := (R * R)%type.
Definition pt3 : Type := (R * R * R)%type.

(** The four pixel corners of one detected marker, [corners[i][0]]. *)
Record quad := Quad { q0 : pt2; q1 : pt2; q2 : pt2; q3 : pt2 }.

Definition corner (q : quad) (j : nat) : pt2 :=
  match j with
  | 0 => q0 q
  | 1 => q1 q
  | 2 => q2 q
  | _ => q3 q
  end.

(** What [cv.aruco.detectMarkers] hands back: the tuple of corners and the
    column of ids, which is [None] when nothing was found. *)
Record detection := Detection {
  det_corners : list quad;
  det_ids : option (list Z)
}.

(** A detection is well formed when ids and corners run in parallel. *)
Definition det_wf (d : detection) : Prop :=
  match det_ids d with
  | Some ids => length ids = length (det_corners d)
  | None => det_corners d = []
  end.

(** The ids seen in a frame. *)
Definition det_seen (d : detection) : list Z := default [] (det_ids d).

(** ** sort_corners_by_id *)

Module Matcher.

(** [id_list.index(id)]: position of the first occurrence. *)
Fixpoint py_index (id : Z) (l : list Z) : option nat :=
  match l with
  | [] => None
  | x :: l' => if decide (x = id) then Some 0 else S <$> py_index id l'
  end.

(** The pair [(scene, use_index)]. *)
Definition arrays : Type := (list pt2 * list bool)%type.

(** [np.zeros(n, dtype=bool)] and [np.empty((n, 2))]; the cells of the
    latter hold whatever the allocator left there, [mem]. *)
Definition np_zeros_bool (n : nat) : list bool := replicate n false.
Definition np_empty (mem : nat → pt2) (n : nat) : list pt2 := mem <$> seq 0 n.

(** One pass of the inner loop body, [j] from 0 to 3. *)
Definition set_row (r : nat) (p : pt2) (a : arrays) : arrays :=
  (<[r := p]> a.1, <[r := true]> a.2).

Definition write_corners (k : nat) (q : quad) (a : arrays) : arrays :=
  foldl (λ a j, set_row (4 * k + j) (corner q j) a) a (seq 0 4).

(** The outer loop body for observation [i]. *)
Definition visit (id_list : list Z) (id : Z) (q : quad) (a : arrays) : py arrays :=
  if bool_decide (id ∈ id_list) then
    match py_index id id_list with
    | Some k => Ok (write_corners k q a)
    | None => Raise ValueError
    end
  else Ok a.

(** [for i in range(len(corners))], reading [ids[i, 0]]. *)
Fixpoint loop (id_list : list Z) (ids : option (list Z)) (i : nat)
    (corners : list quad) (a : arrays) : py arrays :=
  match corners with
  | [] => Ok a
  | q :: rest =>
      match ids with
      | None => Raise TypeError
      | Some l =>
          match l !! i with
          | None => Raise IndexError
          | Some id =>
              a' ← visit id_list id q a;
              loop id_list ids (S i) rest a'
          end
      end
  end.

Definition sort_corners_by_id (mem : nat → pt2) (corners : list quad)
    (ids : option (list Z)) (id_list : list Z) : py arrays :=
  let use_index := np_zeros_bool (length id_list * 4) in
  let scene := np_empty mem (length id_list * 4) in
  loop id_list ids 0 corners (scene, use_index).

(** [any(use_index)] and the number of valid rows. *)
Definition any (m : list bool) : bool := existsb (λ b, b) m.
Definition count_valid (m : list bool) : nat := length (filter (λ b, b = true) m).

(** The two arrays as allocated, before the loop. *)
Definition arrays0 (mem : nat → pt2) (id_list : list Z) : arrays :=
  (np_empty mem (length id_list * 4), np_zeros_bool (length id_list * 4)).

(** The loop seen as a fold over the frame's observations, each an id
    with its corners; an id outside the layout is passed over. *)
Definition observations (d : detection) : list (Z * quad) :=
  zip (det_seen d) (det_corners d).

Definition visit_pure (id_list : list Z) (a : arrays) (o : Z * quad) : arrays :=
  match py_index o.1 id_list with
  | Some k => write_corners k o.2 a
  | None => a
  end.

(** The corners of the last observation that lands on layout slot [k]. *)
Fixpoint last_obs (id_list : list Z) (k : nat) (obs : list (Z * quad)) : option quad :=
  match obs with
  | [] => None
  | o :: rest =>
      match last_obs id_list k rest with
      | Some q => Some q
      | None => if decide (py_index o.1 id_list = Some k) then Some o.2 else None
      end
  end.

End Matcher.

(** ** reverse_project *)

Module Geometry.
Local Open Scope R_scope.

Definition vec3 : Type := pt3.

Record mat3 := Mat3 {
  m00 : R; m01 : R; m02 : R;
  m10 : R; m11 : R; m12 : R;
  m20 : R; m21 : R; m22 : R
}.

Definition I3 : mat3 := Mat3 1 0 0 0 1 0 0 0 1.
Definition zero3 : vec3 := (0, 0, 0).

Definition vsub (u v : vec3) : vec3 :=
  let '(a, b, c) := u in
  let '(x, y, z) := v in
  (a - x, b - y, c - z).

(** Matrix times column vector, [R_inv * (poi - T)]. *)
Definition mat_vec (M : mat3) (v : vec3) : vec3 :=
  let '(x, y, z) := v in
  (m00 M * x + m01 M * y + m02 M * z,
   m10 M * x + m11 M * y + m12 M * z,
   m20 M * x + m21 M * y + m22 M * z).

Definition det3 (M : mat3) : R :=
  m00 M * (m11 M * m22 M - m12 M * m21 M)
  - m01 M * (m10 M * m22 M - m12 M * m20 M)
  + m02 M * (m10 M * m21 M - m11 M * m20 M).

(** [np.linalg.inv]: the inverse of a 3x3 matrix (adjugate over
    determinant); a singular matrix raises [LinAlgError]. *)
Definition linalg_inv (M : mat3) : py mat3 :=
  let d := det3 M in
  if Req_dec_T d 0 then Raise LinAlgError
  else Ok (Mat3
    ((m11 M * m22 M - m12 M * m21 M) / d)
    ((m02 M * m21 M - m01 M * m22 M) / d)
    ((m01 M * m12 M - m02 M * m11 M) / d)
    ((m12 M * m20 M - m10 M * m22 M) / d)
    ((m00 M * m22 M - m02 M * m20 M) / d)
    ((m02 M * m10 M - m00 M * m12 M) / d)
    ((m10 M * m21 M - m11 M * m20 M) / d)
    ((m01 M * m20 M - m00 M * m21 M) / d)
    ((m00 M * m11 M - m01 M * m10 M) / d)).

(** [cv.Rodrigues]: rotation matrix of the axis-angle vector [rvec],
    [cos t * I + (1 - cos t) * r r^T + sin t * [r]x] with [t] the norm of
    [rvec] and [r = rvec / t]; the identity when [t] vanishes. *)
Definition Rodrigues (rvec : vec3) : mat3 :=
  let '(x, y, z) := rvec in
  let t := sqrt (x * x + y * y + z * z) in
  if Req_dec_T t 0 then I3
  else
    let c := cos t in
    let s := sin t in
    let c1 := 1 - c in
    let rx := x / t in
    let ry := y / t in
    let rz := z / t in
    Mat3 (c + c1 * rx * rx)      (c1 * rx * ry - s * rz) (c1 * rx * rz + s * ry)
         (c1 * rx * ry + s * rz) (c + c1 * ry * ry)      (c1 * ry * rz - s * rx)
         (c1 * rx * rz - s * ry) (c1 * ry * rz + s * rx) (c + c1 * rz * rz).

Definition reverse_project (point rvec tvec : vec3) : py vec3 :=
  let poi := point in
  let R_mat := Rodrigues rvec in
  R_inv ← linalg_inv R_mat;
  let T := tvec in
  Ok (mat_vec R_inv (vsub poi T)).

End Geometry.

(** ** The map and stylus models, as loaded from JSON *)

Record aruco_code := ArucoCode {
  ac_id : Z;
  ac_position : pt3 * pt3 * pt3 * pt3
}.

Record hotspot := Hotspot {
  color : list Z;
  textDescription : string;
  audioDescription : string
}.

Record positioningData := PositioningData {
  arucoType : string;
  arucoCodes : list aruco_code
}.

Record model := Model {
  filename : string;
  pixels_per_cm : R;
  positioning : positioningData;
  hotspots : list hotspot
}.

(** [parse_aruco_codes]: four model points per marker, and the ids. *)
Definition parse_aruco_codes (codes : list aruco_code) : list pt3 * list Z :=
  (codes ≫= (λ c, let '(p0, p1, p2, p3) := ac_position c in [p0; p1; p2; p3]),
   ac_id <$> codes).

(** ** ModelDetector and PoseDetector *)

Module Detect.
Import Matcher Geometry.

(** The result of [cv.solvePnP]: [(retval, rvec, tvec)]. *)
Definition pnp_result : Type := (bool * vec3 * vec3)%type.

Record detector := Detector {
  obj : list pt3;
  list_of_ids : list Z;
  aruco_dict : string;
  intrinsic_matrix : mat3
}.

Definition detector_init (pd : positioningData) (K : mat3) : detector :=
  let '(o, ids) := parse_aruco_codes (arucoCodes pd) in
  Detector o ids (arucoType pd) K.

(** Boolean-mask row selection, [a[use_index, :]]; numpy refuses a mask
    whose length differs from the number of rows. *)
Definition mask_rows {A} (rows : list A) (mask : list bool) : py (list A) :=
  if decide (length rows = length mask)
  then Ok (fst <$> filter (λ rb, rb.2 = true) (zip rows mask))
  else Raise IndexError.

Definition is_none {A} (o : option A) : bool :=
  match o with
  | None => true
  | Some _ => false
  end.

Section Solver.
(** The external PnP solver, which may raise. *)
Variable solvePnP : list pt3 → list pt2 → mat3 → py pnp_result.

(** [ModelDetector.detect], given what [detectMarkers] found in the
    frame; the result is [(retval, rvec, tvec)]. *)
Definition ModelDetector_detect (self : detector) (mem : nat → pt2)
    (found : detection) : py (bool * option vec3 * option vec3) :=
  '(scene, use_index) ←
    sort_corners_by_id mem (det_corners found) (det_ids found) (list_of_ids self);
  if is_none (det_ids found) || negb (any use_index) then
    Ok (false, None, None)
  else
    o ← mask_rows (obj self) use_index;
    s ← mask_rows scene use_index;
    '(retval, rvec, tvec) ← solvePnP o s (intrinsic_matrix self);
    Ok (retval, Some rvec, Some tvec).

(** [PoseDetector.detect]. *)
Definition PoseDetector_detect (self : detector) (mem : nat → pt2)
    (found : detection) (rvec_model tvec_model : vec3) : py (option vec3) :=
  '(scene, use_index) ←
    sort_corners_by_id mem (det_corners found) (det_ids found) (list_of_ids self);
  if is_none (det_ids found) || negb (any use_index) then
    Ok None
  else
    '(retval, rvec_aruco, tvec_aruco) ← solvePnP (obj self) scene (intrinsic_matrix self);
    point_of_interest ← reverse_project tvec_aruco rvec_model tvec_model;
    Ok (Some point_of_interest).
End Solver.

End Detect.

(** ** Zone lookup *)

Module Zone.
Local Open Scope Z_scope.

(** The reference zone image: [shape[0]] rows, [shape[1]] columns, and a
    BGR pixel at every row and column. *)
Record image := Image {
  shape0 : Z;
  shape1 : Z;
  pixel : Z → Z → Z * Z * Z
}.

(** The two kinds of value [get_zone] hands to [match_color]: a
    zero-dimensional array (a bare number) or a one-dimensional one. *)
Inductive ndarray : Type :=
| Scalar (v : Z)
| Vector (l : list Z).

(** Python's [int] on a float truncates towards zero. *)
Definition py_int (r : R) : Z :=
  if Rle_dec 0 r then Int_part r else - Int_part (- r).

Definition get_zone (point_of_interest : pt3) (img_map : image) (ppc : R) : ndarray :=
  let '(p0, p1, _) := point_of_interest in
  let x := py_int (p0 * ppc) in
  let y := py_int (p1 * ppc) in
  if bool_decide (0 ≤ x < shape1 img_map) && bool_decide (0 ≤ y < shape0 img_map) then
    let '(b, g, r) := pixel img_map y x in Vector [b; g; r]
  else Scalar 0.

(** [np.squeeze] drops axes of length one. *)
Definition squeeze (a : ndarray) : ndarray :=
  match a with
  | Vector [v] => Scalar v
  | _ => a
  end.

(** [np.array_equal]: same shape and same elements. *)
Definition array_equal (a b : ndarray) : bool :=
  match a, b with
  | Scalar x, Scalar y => bool_decide (x = y)
  | Vector l1, Vector l2 => bool_decide (l1 = l2)
  | _, _ => false
  end.

Definition match_color (rgb_color_list : list Z) (bgr : ndarray) : bool :=
  if array_equal (Vector (reverse rgb_color_list)) (squeeze bgr) then true else false.

(** The loop of [get_dict_idx_from_color], from index [i] on. *)
Fixpoint idx_from (i : Z) (l : list hotspot) (c : ndarray) : Z :=
  match l with
  | [] => -1
  | dictionary :: rest =>
      if match_color (color dictionary) c then i else idx_from (i + 1) rest c
  end.

Definition get_dict_idx_from_color (list_of_dicts : list hotspot) (c : ndarray) : Z :=
  idx_from 0 list_of_dicts c.

End Zone.

(** ** InteractionPolicy *)

Module Policy.
Import Zone.
Local Open Scope Z_scope.

(** [np.unique]: the distinct values in ascending order. *)
Fixpoint insert_unique (x : Z) (l : list Z) : list Z :=
  match l with
  | [] => [x]
  | y :: l' =>
      if decide (x < y) then x :: l
      else if decide (x = y) then l
      else y :: insert_unique x l'
  end.

Definition np_unique (a : list Z) : list Z := foldr insert_unique [] a.

(** [np.sum(a == score)]. *)
Definition count_of (a : list Z) (score : Z) : nat :=
  length (filter (λ v, v = score) a).

(** [scipy.stats.mode] on a one-dimensional array: every distinct value
    is scored in ascending order, and a later value replaces the current
    one only with a strictly larger count. *)
Definition mode_step (a : list Z) (old : Z * nat) (score : Z) : Z * nat :=
  let '(oldmostfreq, oldcounts) := old in
  let counts := count_of a score in
  (if bool_decide (oldcounts < counts)%nat then score else oldmostfreq,
   Nat.max counts oldcounts).

Definition stats_mode (a : list Z) : Z :=
  fst (foldl (mode_step a) (0, 0%nat) (np_unique a)).

Definition zone_filter_size : nat := 10.

Record policy := PolicyState {
  zone_filter : list Z;
  zone_filter_cnt : nat
}.

Definition policy_init : policy :=
  PolicyState (replicate zone_filter_size (-1)) 0.

(** The ring buffer has its ten cells and the cursor points into it. *)
Definition policy_ok (self : policy) : Prop :=
  length (zone_filter self) = zone_filter_size ∧
  (zone_filter_cnt self < zone_filter_size)%nat.

(** The raw zone of a position. *)
Definition raw_zone (m : model) (img : image) (position : pt3) : Z :=
  get_dict_idx_from_color (hotspots m) (get_zone position img (pixels_per_cm m)).

(** [push_gesture]: the returned zone and the updated filter.  Storing
    past the end of the buffer raises. *)
Definition push_gesture (m : model) (img : image) (self : policy)
    (position : pt3) : py (Z * policy) :=
  let zone_color := get_zone position img (pixels_per_cm m) in
  if decide (zone_filter_cnt self < length (zone_filter self))%nat then
    let zf := <[zone_filter_cnt self := get_dict_idx_from_color (hotspots m) zone_color]>
                (zone_filter self) in
    let cnt := ((zone_filter_cnt self + 1) `mod` zone_filter_size)%nat in
    let zone := stats_mode zf in
    let self' := PolicyState zf cnt in
    if Rlt_dec (Rabs (position.2)) 2 then Ok (zone, self')
    else Ok (-1, self')
  else Raise IndexError.

(** The scan of [stats_mode] keeps, over the scores seen so far, a most
    frequent value that is the smallest among the most frequent ones. *)
Definition scan_inv (a seen : list Z) (acc : Z * nat) : Prop :=
  (seen = [] ∧ acc.2 = 0%nat) ∨
  (acc.1 ∈ seen ∧ acc.2 = count_of a acc.1 ∧
   (∀ v, v ∈ seen → (count_of a v ≤ acc.2)%nat) ∧
   (∀ v, v ∈ seen → count_of a v = acc.2 → acc.1 ≤ v)).

(** What a classification does to the filter, whatever it returns. *)
Definition store (self : policy) (raw : Z) : policy :=
  PolicyState
    (<[zone_filter_cnt self := raw]> (zone_filter self))
    ((zone_filter_cnt self + 1) `mod` zone_filter_size)%nat.

Definition pushed (m : model) (img : image) (self : policy) (position : pt3) : policy :=
  store self (raw_zone m img position).

(** A run of classifications: the zones returned and the final filter. *)
Fixpoint pushes (m : model) (img : image) (self : policy)
    (positions : list pt3) : py (list Z * policy) :=
  match positions with
  | [] => Ok ([], self)
  | p :: rest =>
      '(zone, self') ← push_gesture m img self p;
      '(zones, self'') ← pushes m img self' rest;
      Ok (zone :: zones, self'')
  end.

(** The mode as the specification words it: the most frequent value,
    the first one met in the buffer among those tied for most frequent. *)
Definition mode_first_encountered (a : list Z) : Z :=
  let best := foldr Nat.max 0%nat (count_of a <$> a) in
  default 0 (head (filter (λ v, count_of a v = best) a)).

(** The mode as computed: the most frequent value, the smallest one
    among those tied for most frequent. *)
Definition is_mode_smallest (a : list Z) (z : Z) : Prop :=
  z ∈ a ∧
  (∀ v, (count_of a v ≤ count_of a z)%nat) ∧
  (∀ v, count_of a v = count_of a z → z ≤ v).

End Policy.

(** ** CamIOPlayer *)

Module Player.
Local Open Scope R_scope.

(** Python list indexing by an integer: negative indices count from the
    end, anything else out of range raises [IndexError]. *)
Definition py_getitem {A} (l : list A) (i : Z) : py A :=
  let n := Z.of_nat (length l) in
  let j := if decide (i < 0)%Z then (i + n)%Z else i in
  if decide (0 ≤ j < n)%Z then
    match l !! Z.to_nat j with
    | Some x => Ok x
    | None => Raise IndexError
    end
  else Raise IndexError.

Record player := PlayerState {
  player_model : model;
  prev_zone_name : string;
  start_time : R;
  sound_files : list string
}.

(** What the user can observe of a call: a cue was started, or the
    backend failed and the message was printed instead. *)
Inductive event : Type :=
| Played (sound : string)
| PlayFailed (sound : string).

(** [__init__]: one loaded sound per hotspot whose file exists, appended
    in order; [now] is the clock at construction. *)
Definition player_init (m : model) (path_exists : string → bool) (now : R) : player :=
  PlayerState m ""
    now
    (audioDescription <$> filter (λ h, path_exists (audioDescription h) = true) (hotspots m)).

(** [convey].  [t_check] and [t_set] are the two readings of
    [time.time()], [play_ok] tells whether [sound.play()] returns. *)
Definition convey (self : player) (zone : Z) (t_check t_set : R)
    (play_ok : string → bool) : py (player * list event) :=
  h ← py_getitem (hotspots (player_model self)) zone;
  let zone_name := textDescription h in
  if decide (prev_zone_name self ≠ zone_name) then
    if Rgt_dec (t_check - start_time self) 0.5 then
      sound ← py_getitem (sound_files self) zone;
      let ev := if play_ok sound then Played sound else PlayFailed sound in
      Ok (PlayerState (player_model self) zone_name t_set (sound_files self), [ev])
    else Ok (self, [])
  else Ok (self, []).

(** One call of [convey] with what the outside world supplies to it. *)
Record call := Call {
  call_zone : Z;
  call_t_check : R;
  call_t_set : R;
  call_play_ok : string → bool
}.

(** A sequence of calls, one per frame that reaches the dispatcher. *)
Fixpoint conveys (self : player) (calls : list call) : py (player * list event) :=
  match calls with
  | [] => Ok (self, [])
  | c :: rest =>
      '(self', evs) ← convey self (call_zone c) (call_t_check c) (call_t_set c) (call_play_ok c);
      '(self'', evs') ← conveys self' rest;
      Ok (self'', evs ++ evs')
  end.

(** The state after a dispatch of hotspot [h] at time [t_set], and the
    event the user observes for [sound]. *)
Definition dispatched (self : player) (h : hotspot) (t_set : R) : player :=
  PlayerState (player_model self) (textDescription h) t_set (sound_files self).

Definition play_event (play_ok : string → bool) (sound : string) : event :=
  if play_ok sound then Played sound else PlayFailed sound.

End Player.

(** ** The main loop *)

Module Main.
Import Matcher Geometry Detect Zone Policy Player.

Section Pipeline.
Variable frame : Type.
(** [cv.aruco.detectMarkers] for a given marker dictionary. *)
Variable detectMarkers : frame → string → detection.
Variable solvePnP : list pt3 → list pt2 → mat3 → py pnp_result.

(** Everything fixed at start-up. *)
Record config := Config {
  cfg_model : model;
  cfg_image : image;
  model_detector : detector;
  pose_detector : detector
}.

(** The state carried from one iteration to the next. *)
Record app := App {
  loop_has_run : bool;
  interact : policy;
  camio_player : player
}.

(** What the outside world supplies during one iteration. *)
Record tick := Tick {
  cap_isOpened : bool;
  cap_ret : bool;
  cap_frame : frame;
  waitKey : Z;
  mem_model : nat → pt2;
  mem_stylus : nat → pt2;
  t_check : R;
  t_set : R;
  play_ok : string → bool
}.

Inductive control : Type :=
| Continue (s : app) (evs : list event)
| Break.

(** One pass through the body of [while cap.isOpened()]. *)
Definition loop_body (c : config) (s : app) (w : tick) : py control :=
  if negb (cap_isOpened w) then Ok Break
  else if negb (cap_ret w) then Ok Break
  else if loop_has_run s && (bool_decide (waitKey w = 27%Z) || bool_decide (waitKey w = 113%Z))
  then Ok Break
  else
    let s := App true (interact s) (camio_player s) in
    let img_scene := cap_frame w in
    '(retval, rvec, tvec) ←
      ModelDetector_detect solvePnP (model_detector c) (mem_model w)
        (detectMarkers img_scene (aruco_dict (model_detector c)));
    if negb retval then Ok (Continue s [])
    else
      match rvec, tvec with
      | Some rvec, Some tvec =>
          point_of_interest ←
            PoseDetector_detect solvePnP (pose_detector c) (mem_stylus w)
              (detectMarkers img_scene (aruco_dict (pose_detector c))) rvec tvec;
          match point_of_interest with
          | None => Ok (Continue s [])
          | Some p =>
              '(zone_id, pol) ← push_gesture (cfg_model c) (cfg_image c) (interact s) p;
              let s := App true pol (camio_player s) in
              if decide (zone_id > -1)%Z then
                '(pl, evs) ← convey (camio_player s) zone_id (t_check w) (t_set w) (play_ok w);
                Ok (Continue (App true pol pl) evs)
              else Ok (Continue s [])
          end
      | _, _ => Raise TypeError
      end.

(** The loop over the frames the camera delivers. *)
Fixpoint run (c : config) (s : app) (ws : list tick) : py (app * list event) :=
  match ws with
  | [] => Ok (s, [])
  | w :: ws' =>
      r ← loop_body c s w;
      match r with
      | Break => Ok (s, [])
      | Continue s' evs =>
          '(s'', evs') ← run c s' ws';
          Ok (s'', evs ++ evs')
      end
  end.
End Pipeline.

Arguments Tick {frame}.
Arguments cap_isOpened {frame}.
Arguments cap_ret {frame}.
Arguments cap_frame {frame}.
Arguments waitKey {frame}.
Arguments mem_model {frame}.
Arguments mem_stylus {frame}.
Arguments t_check {frame}.
Arguments t_set {frame}.
Arguments play_ok {frame}.
Arguments loop_body {frame}.
Arguments run {frame}.

End Main.

(** ** Further helpers of the script *)

Module Registry.

(** [get_dict_from_color]: the first hotspot whose colour list equals
    [color], [None] when there is none. *)
Fixpoint get_dict_from_color (list_of_dicts : list hotspot) (c : list Z) : option hotspot :=
  match list_of_dicts with
  | [] => None
  | dictionary :: rest =>
      if decide (color dictionary = c) then Some dictionary
      else get_dict_from_color rest c
  end.

(** The OpenCV marker dictionaries the script knows by name. *)
Inductive aruco_dict_id : Set :=
| DICT_4X4_50 | DICT_4X4_100 | DICT_4X4_250 | DICT_4X4_1000
| DICT_5X5_50 | DICT_5X5_100 | DICT_5X5_250.

(** [get_aruco_dict_id_from_string]; falling off the end of the chain of
    comparisons returns [None]. *)
Definition get_aruco_dict_id_from_string (aruco_dict_string : string) : option aruco_dict_id :=
  if String.eqb aruco_dict_string "DICT_4X4_50" then Some DICT_4X4_50
  else if String.eqb aruco_dict_string "DICT_4X4_100" then Some DICT_4X4_100
  else if String.eqb aruco_dict_string "DICT_4X4_250" then Some DICT_4X4_250
  else if String.eqb aruco_dict_string "DICT_4X4_1000" then Some DICT_4X4_1000
  else if String.eqb aruco_dict_string "DICT_5X5_50" then Some DICT_5X5_50
  else if String.eqb aruco_dict_string "DICT_5X5_100" then Some DICT_5X5_100
  else if String.eqb aruco_dict_string "DICT_5X5_250" then Some DICT_5X5_250
  else None.

(** The names the chain of comparisons goes through. *)
Definition dict_name (d : aruco_dict_id) : string :=
  match d with
  | DICT_4X4_50 => "DICT_4X4_50"
  | DICT_4X4_100 => "DICT_4X4_100"
  | DICT_4X4_250 => "DICT_4X4_250"
  | DICT_4X4_1000 => "DICT_4X4_1000"
  | DICT_5X5_50 => "DICT_5X5_50"
  | DICT_5X5_100 => "DICT_5X5_100"
  | DICT_5X5_250 => "DICT_5X5_250"
  end.

End Registry.

(** ** list_ports *)

Module Ports.

(** What opening a device port gives: a camera that is not opened, or an
    opened one with whether it reads a frame and its width and height,
    [camera.get(3)] and [camera.get(4)]. *)
Inductive camera : Type :=
| NotOpened
| Opened (is_reading : bool) (w h : R).

Record ports := PortLists {
  available_ports : list nat;
  working_ports : list (nat * R * R);
  non_working_ports : list nat
}.

(** One pass through the body of the [while], for port [dev_port]. *)
Definition probe (VideoCapture : nat → camera) (dev_port : nat) (acc : ports) : ports :=
  match VideoCapture dev_port with
  | NotOpened =>
      PortLists (available_ports acc) (working_ports acc)
        (non_working_ports acc ++ [dev_port])
  | Opened true w h =>
      PortLists (available_ports acc) (working_ports acc ++ [(dev_port, h, w)])
        (non_working_ports acc)
  | Opened false w h =>
      PortLists (available_ports acc ++ [dev_port]) (working_ports acc)
        (non_working_ports acc)
  end.

(** [while len(non_working_ports) < 6]; [fuel] bounds the number of
    passes, and [None] means the loop is still running when it is spent. *)
Fixpoint list_ports_loop (fuel : nat) (VideoCapture : nat → camera)
    (dev_port : nat) (acc : ports) : option ports :=
  if decide (length (non_working_ports acc) < 6) then
    match fuel with
    | 0 => None
    | S fuel' =>
        list_ports_loop fuel' VideoCapture (S dev_port) (probe VideoCapture dev_port acc)
    end
  else Some acc.

Definition list_ports (fuel : nat) (VideoCapture : nat → camera) : option ports :=
  list_ports_loop fuel VideoCapture 0 (PortLists [] [] []).

(** The entry a port contributes to each of the three lists, if any. *)
Definition available_of (VideoCapture : nat → camera) (p : nat) : option nat :=
  match VideoCapture p with
  | Opened false _ _ => Some p
  | _ => None
  end.

Definition working_of (VideoCapture : nat → camera) (p : nat) : option (nat * R * R) :=
  match VideoCapture p with
  | Opened true w h => Some (p, h, w)
  | _ => None
  end.

Definition non_working_of (VideoCapture : nat → camera) (p : nat) : option nat :=
  match VideoCapture p with
  | NotOpened => Some p
  | _ => None
  end.

(** The three lists for the ports below [n], each in ascending order. *)
Definition tested (VideoCapture : nat → camera) (n : nat) : ports :=
  PortLists (omap (available_of VideoCapture) (seq 0 n))
            (omap (working_of VideoCapture) (seq 0 n))
            (omap (non_working_of VideoCapture) (seq 0 n)).

End Ports.

(** ** Model points of a marker *)

Module Layout.


End Layout.

(** ** Rigid motions *)

Module Rigid.
Import Geometry.
Local Open Scope R_scope.

Definition vadd (u v : vec3) : vec3 :=
  let '(a, b, c) := u in
  let '(x, y, z) := v in
  (a + x, b + y, c + z).

Definition transpose (M : mat3) : mat3 :=
  Mat3 (m00 M) (m10 M) (m20 M)
       (m01 M) (m11 M) (m21 M)
       (m02 M) (m12 M) (m22 M).

(** The squared length of a vector. *)
Definition norm2 (v : vec3) : R :=
  let '(x, y, z) := v in x * x + y * y + z * z.

(** Where a point [p] of the map lands in camera coordinates under the
    map pose [(rvec, tvec)]. *)
Definition to_camera (p rvec tvec : vec3) : vec3 :=
  vadd (mat_vec (Rodrigues rvec) p) tvec.

End Rigid.

(** ** Invariants of the running pipeline *)

Module Safety.
Import Matcher Geometry Detect Zone Policy Player Main.

(** A zone id is -1 or the index of a hotspot. *)
Definition zone_in_range (m : model) (z : Z) : Prop :=
  (-1 ≤ z < Z.of_nat (length (hotspots m)))%Z.

Definition policy_valid (m : model) (self : policy) : Prop :=
  policy_ok self ∧ Forall (zone_in_range m) (zone_filter self).

(** The list of sounds runs in parallel with the hotspots. *)
Definition player_aligned (self : player) : Prop :=
  sound_files self = audioDescription <$> hotspots (player_model self).

(** The model points of a detector run in parallel with its ids. *)
Definition detector_ok (d : detector) : Prop :=
  length (obj d) = 4 * length (list_of_ids d).


Definition app_valid (c : config) (s : app) : Prop :=
  policy_valid (cfg_model c) (interact s) ∧
  player_aligned (camio_player s) ∧
  player_model (camio_player s) = cfg_model c.



End Safety.

(** ** Sample data *)

Module Samples.

(** A layout of two markers and a frame showing the second of them next
    to a marker that does not belong to the layout. *)
Definition sample_layout : list Z := [7; 9]%Z.
Definition sample_quad (x : R) : quad := Quad (x, 0%R) (x, 1%R) (x, 2%R) (x, 3%R).
Definition sample_detection : detection :=
  Detection [sample_quad 1; sample_quad 2] (Some [9; 3]%Z).

(** A stylus with two markers of which a frame shows only the first, two
    states of the memory behind [np.empty], and a stand-in for the PnP
    solver that reports the sum of the scene abscissas as translation. *)
Definition stylus_marker (z : R) : aruco_code :=
  ArucoCode 0 ((0, 0, z), (1, 0, z), (1, 1, z), (0, 1, z))%R.
Definition stylus_detector : Detect.detector :=
  Detect.Detector
    (parse_aruco_codes [stylus_marker 0; stylus_marker 1]).1
    [1; 2]%Z "DICT_4X4_50" Geometry.I3.
Definition stylus_found : detection :=
  Detection [sample_quad 1] (Some [1]%Z).
Definition mem_zeros : nat → pt2 := λ _, (0, 0)%R.
Definition mem_ones : nat → pt2 := λ _, (1, 1)%R.
Definition probe_solvePnP (o : list pt3) (scene : list pt2) (K : Geometry.mat3)
    : py Detect.pnp_result :=
  Ok (true, Geometry.zero3, (foldr Rplus 0%R (scene.*1), 0%R, 0%R)).

(** A map of two zones, red and green, whose reference image is one row
    of two pixels, and the two positions that touch them. *)
Definition two_zone_model : model :=
  Model "map.png" 1 (PositioningData "DICT_4X4_50" [])
    [Hotspot [255; 0; 0]%Z "red zone" "red.wav";
     Hotspot [0; 255; 0]%Z "green zone" "green.wav"].
Definition two_zone_image : Zone.image :=
  Zone.Image 1 2 (λ y x, if decide (x = 0)%Z then (0, 0, 255)%Z else (0, 255, 0)%Z).
Definition on_red : pt3 := (0, 0, 0)%R.
Definition on_green : pt3 := (1, 0, 0)%R.

(** A map whose only zone is black, and a position left of its image. *)
Definition black_model : model :=
  Model "map.png" 1 (PositioningData "DICT_4X4_50" [])
    [Hotspot [0; 0; 0]%Z "black zone" "black.wav"].
Definition off_image : pt3 := (-1, 0, 0)%R.

(** Players for the two-zone map, built at time 0: one with both audio
    files on disk, one with only the green one, one with none. *)
Definition all_files : string → bool := λ _, true.
Definition only_green : string → bool := λ path, bool_decide (path = "green.wav").
Definition no_files : string → bool := λ _, false.
Definition backend_ok : string → bool := λ _, true.
Definition backend_down : string → bool := λ _, false.
Definition red_hotspot : hotspot := Hotspot [255; 0; 0]%Z "red zone" "red.wav".
Definition early_calls : list Player.call :=
  [Player.Call 0 0.1 0.1 backend_ok; Player.Call 0 0.3 0.3 backend_ok].
Definition late_call : Player.call := Player.Call 0 1 1 backend_ok.

(** A frame in which the detector finds nothing at all. *)
Definition blind_detector : unit → string → detection := λ _ _, Detection [] None.
Definition sample_config : Main.config :=
  Main.Config two_zone_model two_zone_image stylus_detector stylus_detector.
Definition sample_app : Main.app :=
  Main.App false Policy.policy_init (Player.player_init two_zone_model all_files 0).
Definition sample_tick : Main.tick unit :=
  Main.Tick true true tt 0 mem_zeros mem_ones 1 1 backend_ok.

End Samples.

(** Further sample data. *)
Module MoreSamples.
Import Samples.

(** A detection whose corners come without ids. *)
Definition headless_detection : detection := Detection [sample_quad 1] None.


(** A machine with two working cameras on ports 0 and 1 and nothing on
    the ports above. *)
Definition two_cameras : nat → Ports.camera :=
  λ p, if decide (p < 2) then Ports.Opened true 640 480 else Ports.NotOpened.

(** A frame that always shows the first stylus marker, and a stand-in
    for the solver that reports the number of scene rows as depth. *)
Definition seeing_detector : unit → string → detection := λ _ _, stylus_found.
Definition depth_solvePnP (o : list pt3) (scene : list pt2) (K : Geometry.mat3)
    : py Detect.pnp_result :=
  Ok (true, Geometry.zero3, (0, 0, IZR (Z.of_nat (length scene)))%R).
Definition lifted : pt3 := (0, 0, 4)%R.

(** A stylus with the single marker 9. *)
Definition one_marker_detector : Detect.detector :=
  Detect.Detector (parse_aruco_codes [stylus_marker 0]).1 [9]%Z "DICT_4X4_50" Geometry.I3.

(** A machine on which every port opens and reads. *)
Definition endless_cameras : nat → Ports.camera := λ _, Ports.Opened true 640 480.

End MoreSamples.

(** * Properties *)

(** ** The correspondence matcher *)

Module MatcherFacts.
Import Matcher Samples.

Lemma py_index_Some id l k :
  py_index id l = Some k →
  l !! k = Some id ∧ ∀ k', k' < k → l !! k' ≠ Some id.
Proof.
  revert k. induction l as [|x l IH]; intros k; simpl; [done|].
  case_decide as Hx.
  - intros [= <-]. split; [by subst|]. intros k' Hk'. lia.
  - destruct (py_index id l) as [k0|] eqn:E; simpl; [|done].
    intros [= <-]. destruct (IH k0 eq_refl) as [H1 H2]. split; [done|].
    intros [|k'] Hk'; simpl; [congruence|]. apply H2. lia.
Qed.

Lemma py_index_None id l : py_index id l = None ↔ id ∉ l.
Proof.
  induction l as [|x l IH]; simpl.
  - split; [intros _; apply not_elem_of_nil|done].
  - case_decide as Hx.
    + split; [done|]. intros H. destruct H. subst. left.
    + rewrite not_elem_of_cons. destruct (py_index id l); simpl.
      * split; [done|]. intros [_ H]. by apply IH in H.
      * split; [|done]. intros _. split; [congruence|]. by apply IH.
Qed.

Lemma py_index_elem id l : id ∈ l → is_Some (py_index id l).
Proof.
  intros Hin. destruct (py_index id l) eqn:E; [by eexists|].
  by apply py_index_None in E.
Qed.

Lemma py_index_inj a b l k :
  py_index a l = Some k → py_index b l = Some k → a = b.
Proof.
  intros Ha Hb. apply py_index_Some in Ha as [Ha _].
  apply py_index_Some in Hb as [Hb _]. congruence.
Qed.

Lemma py_index_lookup l k id :
  l !! k = Some id → (∀ k', k' < k → l !! k' ≠ Some id) → py_index id l = Some k.
Proof.
  intros Hk Hfirst.
  destruct (py_index id l) as [k0|] eqn:E.
  - apply py_index_Some in E as [E1 E2].
    destruct (decide (k0 = k)) as [->|Hne]; [done|].
    destruct (decide (k0 < k)); [by destruct (Hfirst k0)|].
    destruct (E2 k); [lia|done].
  - apply py_index_None in E. destruct E. by eapply list_elem_of_lookup_2.
Qed.

(** Writing the four corners of marker [k] touches rows [4k .. 4k+3]
    only, and never changes the size of either array. *)
Lemma write_corners_length k q a :
  length (write_corners k q a).1 = length a.1 ∧
  length (write_corners k q a).2 = length a.2.
Proof. unfold write_corners, set_row; simpl. by rewrite !length_insert. Qed.

Lemma write_corners_scene k q a d m :
  m < 4 → 4 * d + m < length a.1 →
  (write_corners k q a).1 !! (4 * d + m) =
    if decide (d = k) then Some (corner q m) else a.1 !! (4 * d + m).
Proof.
  intros Hm Hr. unfold write_corners, set_row. cbn [foldl seq fst snd].
  rewrite !list_lookup_insert, !length_insert.
  destruct m as [|[|[|[|?]]]]; [| | | |lia];
    repeat case_decide; subst; cbn [corner]; try lia; done.
Qed.

Lemma write_corners_mask k q a d m :
  m < 4 → 4 * d + m < length a.2 →
  (write_corners k q a).2 !! (4 * d + m) =
    if decide (d = k) then Some true else a.2 !! (4 * d + m).
Proof.
  intros Hm Hr. unfold write_corners, set_row. cbn [foldl seq fst snd].
  rewrite !list_lookup_insert, !length_insert.
  destruct m as [|[|[|[|?]]]]; [| | | |lia];
    repeat case_decide; subst; try lia; done.
Qed.

Lemma visit_visit_pure id_list id q a :
  visit id_list id q a = Ok (visit_pure id_list a (id, q)).
Proof.
  unfold visit, visit_pure; simpl. case_bool_decide as Hin.
  - destruct (py_index_elem _ _ Hin) as [k ->]. done.
  - apply py_index_None in Hin. by rewrite Hin.
Qed.

Lemma loop_fold id_list pre l corners a :
  length l = length corners →
  loop id_list (Some (pre ++ l)) (length pre) corners a =
    Ok (foldl (visit_pure id_list) a (zip l corners)).
Proof.
  revert pre l a. induction corners as [|q rest IH]; intros pre l a Hlen.
  - destruct l; [done|]. simpl in Hlen. lia.
  - destruct l as [|id l]; [simpl in Hlen; lia|]. cbn [loop].
    rewrite list_lookup_middle by done.
    rewrite visit_visit_pure. cbn [mbind py_bind zip zip_with foldl].
    specialize (IH (pre ++ [id]) l (visit_pure id_list a (id, q))).
    rewrite <- (assoc_L (++)), length_app in IH. cbn [app length] in IH.
    rewrite Nat.add_1_r in IH. apply IH. simpl in Hlen. lia.
Qed.

Lemma loop_fold0 id_list l corners a :
  length l = length corners →
  loop id_list (Some l) 0 corners a =
    Ok (foldl (visit_pure id_list) a (zip l corners)).
Proof. apply (loop_fold id_list []). Qed.

Lemma sort_corners_by_id_fold mem d id_list :
  det_wf d →
  sort_corners_by_id mem (det_corners d) (det_ids d) id_list =
    Ok (foldl (visit_pure id_list) (arrays0 mem id_list) (observations d)).
Proof.
  unfold det_wf, sort_corners_by_id, observations, det_seen, arrays0.
  destruct (det_ids d) as [l|]; simpl.
  - intros Hlen. by apply loop_fold0.
  - intros ->. done.
Qed.

Lemma fold_length id_list obs a :
  length (foldl (visit_pure id_list) a obs).1 = length a.1 ∧
  length (foldl (visit_pure id_list) a obs).2 = length a.2.
Proof.
  revert a. induction obs as [|o obs IH]; intros a; [done|]. cbn [foldl].
  destruct (IH (visit_pure id_list a o)) as [-> ->].
  unfold visit_pure. destruct (py_index o.1 id_list); [|done].
  apply write_corners_length.
Qed.

Lemma fold_scene id_list obs a d m :
  m < 4 → 4 * d + m < length a.1 →
  (foldl (visit_pure id_list) a obs).1 !! (4 * d + m) =
    match last_obs id_list d obs with
    | Some q => Some (corner q m)
    | None => a.1 !! (4 * d + m)
    end.
Proof.
  intros Hm. revert a. induction obs as [|o obs IH]; intros a Hr; [done|].
  cbn [foldl last_obs]. rewrite IH.
  - destruct (last_obs id_list d obs); [done|].
    unfold visit_pure. destruct (py_index o.1 id_list) as [k|] eqn:E.
    + rewrite write_corners_scene by done.
      repeat case_decide; simplify_eq; done.
    + by case_decide.
  - unfold visit_pure. destruct (py_index o.1 id_list); [|done].
    by rewrite (proj1 (write_corners_length _ _ _)).
Qed.

Lemma fold_mask id_list obs a d m :
  m < 4 → 4 * d + m < length a.2 →
  (foldl (visit_pure id_list) a obs).2 !! (4 * d + m) =
    match last_obs id_list d obs with
    | Some q => Some true
    | None => a.2 !! (4 * d + m)
    end.
Proof.
  intros Hm. revert a. induction obs as [|o obs IH]; intros a Hr; [done|].
  cbn [foldl last_obs]. rewrite IH.
  - destruct (last_obs id_list d obs); [done|].
    unfold visit_pure. destruct (py_index o.1 id_list) as [k|] eqn:E.
    + rewrite write_corners_mask by done.
      repeat case_decide; simplify_eq; done.
    + by case_decide.
  - unfold visit_pure. destruct (py_index o.1 id_list); [|done].
    by rewrite (proj2 (write_corners_length _ _ _)).
Qed.

Lemma last_obs_None id_list k obs :
  last_obs id_list k obs = None ↔
  ∀ o, o ∈ obs → py_index o.1 id_list ≠ Some k.
Proof.
  induction obs as [|o obs IH]; cbn [last_obs].
  - split; [|done]. intros _ o Ho. by apply elem_of_nil in Ho.
  - destruct (last_obs id_list k obs) as [q|].
    + split; [done|]. intros H. apply IH. intros o' Ho'. apply H. by right.
    + case_decide as Hk.
      * split; [done|]. intros H. destruct (H o); [left|done].
      * split; [|done]. intros _ o' [->|Ho']%elem_of_cons; [done|].
        by apply IH.
Qed.

Lemma last_obs_Some id_list k obs q :
  last_obs id_list k obs = Some q →
  ∃ i id, obs !! i = Some (id, q) ∧ py_index id id_list = Some k ∧
          ∀ i' q', i < i' → obs !! i' ≠ Some (id, q').
Proof.
  induction obs as [|o obs IH]; cbn [last_obs]; [done|].
  destruct (last_obs id_list k obs) as [q'|] eqn:E.
  - intros [= ->]. destruct (IH eq_refl) as (i & id & H1 & H2 & H3).
    exists (S i), id. split_and!; [done..|].
    intros [|i'] q' Hi'; [lia|]. simpl. apply H3. lia.
  - case_decide as Hk; [|done]. intros [= <-].
    exists 0, o.1. split_and!; [by destruct o|done|].
    intros [|i'] q' Hi'; [lia|]. simpl. intros Hl.
    apply list_elem_of_lookup_2 in Hl.
    by eapply last_obs_None in Hl.
Qed.

Lemma last_obs_is_Some id_list k obs :
  is_Some (last_obs id_list k obs) ↔
  ∃ id, id ∈ obs.*1 ∧ py_index id id_list = Some k.
Proof.
  split.
  - intros [q Hq]. apply last_obs_Some in Hq as (i & id & H1 & H2 & _).
    exists id. split; [|done]. apply list_elem_of_fmap. exists (id, q).
    split; [done|]. by eapply list_elem_of_lookup_2.
  - intros (id & Hin & Hk). apply list_elem_of_fmap in Hin as (o & -> & Ho).
    destruct (last_obs id_list k obs) eqn:E; [by eexists|].
    by eapply last_obs_None in E.
Qed.

Lemma count_valid_app m1 m2 :
  count_valid (m1 ++ m2) = count_valid m1 + count_valid m2.
Proof. unfold count_valid. by rewrite filter_app, length_app. Qed.

(** A mask made of blocks of four equal flags has four valid rows per
    raised flag. *)
Lemma count_valid_blocks (b : nat → bool) M mask :
  length mask = 4 * M →
  (∀ d m, d < M → m < 4 → mask !! (4 * d + m) = Some (b d)) →
  count_valid mask = 4 * length (filter (λ k, b k = true) (seq 0 M)).
Proof.
  revert mask. induction M as [|M IH]; intros mask Hlen Hb.
  - destruct mask; [done|]. simpl in Hlen. lia.
  - rewrite <- (take_drop (4 * M) mask), count_valid_app.
    rewrite seq_S, filter_app, length_app. cbn [plus].
    rewrite (IH (take (4 * M) mask)).
    + assert (drop (4 * M) mask = replicate 4 (b M)) as ->.
      { apply list_eq. intros i. rewrite lookup_drop.
        destruct (decide (i < 4)) as [Hi|Hi].
        - rewrite Hb by lia. by rewrite lookup_replicate_2.
        - rewrite lookup_ge_None_2 by lia.
          symmetry. apply lookup_ge_None_2. rewrite length_replicate. lia. }
      rewrite filter_cons, filter_nil. unfold count_valid.
      destruct (b M); simpl; lia.
    + rewrite length_take. lia.
    + intros d m Hd Hm. rewrite lookup_take_lt by lia. apply Hb; lia.
Qed.

Lemma det_wf_length d : det_wf d → length (det_seen d) = length (det_corners d).
Proof.
  unfold det_wf, det_seen. destruct (det_ids d); simpl; [done|]. by intros ->.
Qed.

Lemma observations_lookup d i id q :
  observations d !! i = Some (id, q) ↔
  det_seen d !! i = Some id ∧ det_corners d !! i = Some q.
Proof.
  unfold observations. rewrite (lookup_zip_with_Some pair). split.
  - intros (x & y & [= -> ->] & Hx & Hy). done.
  - intros [Hx Hy]. by exists id, q.
Qed.

(** The layout slots that received an observation are in one-to-one
    correspondence with the observed layout ids. *)
Lemma hit_slots_length d id_list (S : list Z) :
  det_wf d → NoDup S →
  (∀ id, id ∈ S ↔ id ∈ id_list ∧ id ∈ det_seen d) →
  length (filter (λ k, bool_decide (is_Some (last_obs id_list k (observations d))) = true)
            (seq 0 (length id_list))) = length S.
Proof.
  intros Hwf HS Hiff.
  set (K := filter _ _).
  assert (Hobs : (observations d).*1 = det_seen d).
  { apply fst_zip. rewrite (det_wf_length d Hwf). done. }
  assert (HK : ∀ k, k ∈ K ↔ ∃ id, id ∈ det_seen d ∧ py_index id id_list = Some k).
  { intros k. unfold K. rewrite list_elem_of_filter, bool_decide_eq_true.
    rewrite last_obs_is_Some, Hobs, elem_of_seq. split; [by intros [? _]|].
    intros (id & Hin & Hk). split; [by exists id|].
    apply py_index_Some in Hk as [Hk _]. apply lookup_lt_Some in Hk. lia. }
  rewrite <- (length_fmap (λ k, default 0%Z (id_list !! k)) K).
  apply Permutation_length, NoDup_Permutation; [|done|].
  - apply NoDup_fmap_2_strong; [|apply NoDup_filter, NoDup_seq].
    intros k1 k2 (id1 & _ & H1)%HK (id2 & _ & H2)%HK Heq.
    pose proof (py_index_Some _ _ _ H1) as [E1 _].
    pose proof (py_index_Some _ _ _ H2) as [E2 _].
    rewrite E1, E2 in Heq. simpl in Heq. subst. congruence.
  - intros id. rewrite list_elem_of_fmap, Hiff. split.
    + intros (k & -> & (id' & Hin & Hk)%HK).
      pose proof (py_index_Some _ _ _ Hk) as [E _]. rewrite E. simpl.
      split; [|done]. by eapply list_elem_of_lookup_2.
    + intros [Hl Hs]. destruct (py_index_elem _ _ Hl) as [k Hk].
      exists k. pose proof (py_index_Some _ _ _ Hk) as [E _]. rewrite E.
      split; [done|]. apply HK. by exists id.
Qed.

Lemma arrays0_length mem id_list :
  length (arrays0 mem id_list).1 = 4 * length id_list ∧
  length (arrays0 mem id_list).2 = 4 * length id_list.
Proof.
  unfold arrays0, np_empty, np_zeros_bool; simpl.
  rewrite length_fmap, length_seq, length_replicate. lia.
Qed.

(** An observation whose id is not in the layout may be dropped from the
    fold. *)
Lemma fold_skip_absent id_list a obs1 id q obs2 :
  id ∉ id_list →
  foldl (visit_pure id_list) a (obs1 ++ (id, q) :: obs2) =
  foldl (visit_pure id_list) a (obs1 ++ obs2).
Proof.
  intros Hid. rewrite !foldl_app. cbn [foldl]. f_equal.
  unfold visit_pure; simpl. apply py_index_None in Hid. by rewrite Hid.
Qed.

(** After the loop, the four mask entries of layout slot [k] tell whether
    some observation landed on that slot. *)
Lemma fold_mask_flag mem id_list obs k j :
  k < length id_list → j < 4 →
  (foldl (visit_pure id_list) (arrays0 mem id_list) obs).2 !! (4 * k + j) =
    Some (bool_decide (is_Some (last_obs id_list k obs))).
Proof.
  intros Hk Hj. destruct (arrays0_length mem id_list) as [_ Hl2].
  rewrite fold_mask by (rewrite ?Hl2; lia).
  destruct (last_obs id_list k obs) eqn:E.
  - by rewrite bool_decide_eq_true_2.
  - rewrite bool_decide_eq_false_2 by (by intros [? ?]).
    unfold arrays0, np_zeros_bool; simpl.
    apply lookup_replicate_2. lia.
Qed.

Lemma any_false_lookup (m : list bool) :
  (∀ r, m !! r ≠ Some true) → any m = false.
Proof.
  unfold any. induction m as [|b m IH]; intros H; [done|]. simpl.
  destruct b; [by destruct (H 0)|]. simpl. apply IH.
  intros r. apply (H (S r)).
Qed.

Lemma any_false_count (m : list bool) : any m = false → count_valid m = 0.
Proof.
  unfold any, count_valid. induction m as [|b m IH]; [done|]. simpl.
  destruct b; [done|]. simpl. intros H. rewrite filter_cons_False by done.
  by apply IH.
Qed.

(** Fewer than four valid rows means that no observation landed on any
    layout slot: the mask is all false and no seen id is in the layout. *)
Lemma few_valid_none mem d id_list :
  det_wf d →
  let mask := (foldl (visit_pure id_list) (arrays0 mem id_list) (observations d)).2 in
  count_valid mask < 4 →
  any mask = false ∧ ∀ id, id ∈ det_seen d → id ∉ id_list.
Proof.
  intros Hwf mask Hfew.
  destruct (arrays0_length mem id_list) as [_ Hl2].
  destruct (fold_length id_list (observations d) (arrays0 mem id_list)) as [_ Hf2].
  fold mask in Hf2.
  set (flag := λ k, bool_decide (is_Some (last_obs id_list k (observations d)))).
  assert (Hcount : count_valid mask = 4 * length (filter (λ k, flag k = true) (seq 0 (length id_list)))).
  { apply count_valid_blocks; [lia|]. intros k j Hk Hj. by apply fold_mask_flag. }
  assert (Hnone : ∀ k, k < length id_list → flag k = false).
  { intros k Hk. destruct (flag k) eqn:E; [|done].
    assert (k ∈ filter (λ k, flag k = true) (seq 0 (length id_list))) as Hin.
    { apply list_elem_of_filter. split; [done|]. apply elem_of_seq. lia. }
    destruct (filter _ _); [by apply elem_of_nil in Hin|]. simpl in Hcount. lia. }
  split.
  - apply any_false_lookup. intros r Hr.
    assert (r < 4 * length id_list).
    { apply lookup_lt_Some in Hr. lia. }
    assert (∃ k j, r = 4 * k + j ∧ j < 4) as (k & j & -> & Hj).
    { exists (r `div` 4), (r `mod` 4). split; [apply Nat.div_mod_eq|].
      apply Nat.mod_upper_bound. lia. }
    unfold mask in Hr. rewrite fold_mask_flag in Hr by lia.
    fold (flag k) in Hr. rewrite Hnone in Hr by lia. done.
  - intros id Hseen Hlay.
    destruct (py_index_elem _ _ Hlay) as [k Hk].
    assert (k < length id_list).
    { apply py_index_Some in Hk as [Hk _]. by apply lookup_lt_Some in Hk. }
    specialize (Hnone k ltac:(done)). unfold flag in Hnone.
    apply bool_decide_eq_false in Hnone. apply Hnone, last_obs_is_Some.
    exists id. split; [|done].
    unfold observations. rewrite fst_zip; [done|].
    by rewrite (det_wf_length d Hwf).
Qed.

(** C2.  For a layout [id_list] and a well-formed detection in which
    exactly the layout ids [S] are observed, [sort_corners_by_id] returns
    arrays in which exactly [4 * |S|] mask entries are true; every valid
    row [4k+j] holds corner [j] of the (last) observation of layout id
    number [k]; and adding an observation whose id is not in the layout,
    at any place in the detection, yields the very same scene and mask. *)
Theorem sort_corners_by_id_correct mem d id_list (S : list Z) :
  det_wf d →
  NoDup S →
  (∀ id, id ∈ S ↔ id ∈ id_list ∧ id ∈ det_seen d) →
  ∃ scene use_index,
    sort_corners_by_id mem (det_corners d) (det_ids d) id_list = Ok (scene, use_index) ∧
    length use_index = 4 * length id_list ∧
    count_valid use_index = 4 * length S ∧
    (∀ k j, j < 4 → use_index !! (4 * k + j) = Some true →
       ∃ i id q,
         det_seen d !! i = Some id ∧ det_corners d !! i = Some q ∧
         id_list !! k = Some id ∧
         (∀ i', i < i' → det_seen d !! i' ≠ Some id) ∧
         scene !! (4 * k + j) = Some (corner q j)) ∧
    (∀ i id q, id ∉ id_list →
       sort_corners_by_id mem
         (take i (det_corners d) ++ q :: drop i (det_corners d))
         (Some (take i (det_seen d) ++ id :: drop i (det_seen d))) id_list
       = Ok (scene, use_index)).
Proof.
  intros Hwf HS Hiff.
  set (a := foldl (visit_pure id_list) (arrays0 mem id_list) (observations d)).
  exists a.1, a.2.
  destruct (arrays0_length mem id_list) as [Hl1 Hl2].
  destruct (fold_length id_list (observations d) (arrays0 mem id_list)) as [Hf1 Hf2].
  fold a in Hf1, Hf2.
  assert (Hmask : ∀ k j, k < length id_list → j < 4 →
    a.2 !! (4 * k + j) =
      Some (bool_decide (is_Some (last_obs id_list k (observations d))))).
  { intros k j Hk Hj. by apply fold_mask_flag. }
  split_and!.
  - rewrite sort_corners_by_id_fold by done. apply f_equal, surjective_pairing.
  - lia.
  - rewrite <- (hit_slots_length d id_list S Hwf HS Hiff).
    apply (count_valid_blocks
      (λ k, bool_decide (is_Some (last_obs id_list k (observations d))))); [lia|done].
  - intros k j Hj Htrue.
    assert (Hk : k < length id_list).
    { apply lookup_lt_Some in Htrue. lia. }
    rewrite Hmask in Htrue by done. injection Htrue as Htrue.
    apply bool_decide_eq_true in Htrue as [q Hq].
    destruct (last_obs_Some _ _ _ _ Hq) as (i & id & Hi & Hidx & Hlast).
    apply observations_lookup in Hi as [Hi1 Hi2].
    exists i, id, q. split_and!; [done|done| |..].
    + by apply py_index_Some in Hidx as [? _].
    + intros i' Hlt Hi'.
      assert (is_Some (det_corners d !! i')) as [q' Hq'].
      { apply lookup_lt_is_Some. rewrite <- (det_wf_length d Hwf).
        by eapply lookup_lt_Some. }
      apply (Hlast i' q' Hlt). by apply observations_lookup.
    + unfold a. rewrite fold_scene by (rewrite ?Hl1; lia). by rewrite Hq.
  - intros i id q Hid.
    pose proof (det_wf_length d Hwf) as Hlen.
    unfold sort_corners_by_id.
    rewrite loop_fold0
      by (rewrite !length_app; cbn [length]; rewrite !length_take, !length_drop; lia).
    rewrite zip_with_app by (by rewrite !length_take, Hlen).
    cbn [zip_with]. rewrite fold_skip_absent by done.
    rewrite <- zip_with_app by (by rewrite !length_take, Hlen).
    rewrite !take_drop. apply f_equal, surjective_pairing.
Qed.

Lemma sort_corners_by_id_correct_witness :
  ∃ scene use_index,
    sort_corners_by_id (λ _, (0%R, 0%R)) (det_corners sample_detection)
      (det_ids sample_detection) sample_layout = Ok (scene, use_index) ∧
    length use_index = 4 * length sample_layout ∧
    count_valid use_index = 4 * length [9%Z] ∧
    (∀ k j, j < 4 → use_index !! (4 * k + j) = Some true →
       ∃ i id q,
         det_seen sample_detection !! i = Some id ∧
         det_corners sample_detection !! i = Some q ∧
         sample_layout !! k = Some id ∧
         (∀ i', i < i' → det_seen sample_detection !! i' ≠ Some id) ∧
         scene !! (4 * k + j) = Some (corner q j)) ∧
    (∀ i id q, id ∉ sample_layout →
       sort_corners_by_id (λ _, (0%R, 0%R))
         (take i (det_corners sample_detection) ++ q :: drop i (det_corners sample_detection))
         (Some (take i (det_seen sample_detection) ++ id :: drop i (det_seen sample_detection)))
         sample_layout
       = Ok (scene, use_index)).
Proof.
  apply (sort_corners_by_id_correct (λ _, (0%R, 0%R)) sample_detection sample_layout [9%Z]).
  - reflexivity.
  - apply NoDup_singleton.
  - intros id. unfold sample_layout, det_seen; simpl.
    rewrite !elem_of_cons, !elem_of_nil. lia.
Defined.

End MatcherFacts.

(** ** Reverse projection *)

Module GeometryFacts.
Import Geometry.
Local Open Scope R_scope.

Lemma Rodrigues_zero : Rodrigues zero3 = I3.
Proof.
  unfold Rodrigues, zero3.
  replace (0 * 0 + 0 * 0 + 0 * 0) with 0 by ring. rewrite sqrt_0.
  destruct (Req_dec_T 0 0); [done|lra].
Qed.

Lemma det3_I3 : det3 I3 = 1.
Proof. unfold det3, I3; simpl. ring. Qed.

(** A rotation matrix has determinant one. *)
Lemma det3_Rodrigues rvec : det3 (Rodrigues rvec) = 1.
Proof.
  destruct rvec as [[x y] z]. unfold Rodrigues.
  set (t := sqrt (x * x + y * y + z * z)).
  destruct (Req_dec_T t 0) as [|Ht]; [apply det3_I3|].
  assert (Hsq : t * t = x * x + y * y + z * z).
  { apply sqrt_sqrt. nra. }
  pose proof (sin2_cos2 t) as Hsc. unfold Rsqr in Hsc.
  unfold det3; simpl.
  set (c := cos t) in *. set (s := sin t) in *.
  assert (Hn : x / t * (x / t) + y / t * (y / t) + z / t * (z / t) = 1).
  { field_simplify_eq; [|done]. lra. }
  set (rx := x / t) in *. set (ry := y / t) in *. set (rz := z / t) in *.
  clearbody rx ry rz c s. clear Hsq.
  nsatz.
Qed.

(** [np.linalg.inv] returns a two-sided inverse whenever it returns. *)
Lemma linalg_inv_spec M Minv v :
  linalg_inv M = Ok Minv →
  mat_vec M (mat_vec Minv v) = v ∧ mat_vec Minv (mat_vec M v) = v.
Proof.
  unfold linalg_inv. destruct (Req_dec_T (det3 M) 0) as [|Hd]; [done|].
  intros [= <-]. destruct v as [[x y] z]. destruct M; unfold det3 in *; simpl in *.
  split; (f_equal; [f_equal|]); field; done.
Qed.

Lemma linalg_inv_I3 : linalg_inv I3 = Ok I3.
Proof.
  unfold linalg_inv. rewrite det3_I3.
  destruct (Req_dec_T 1 0); [lra|]. unfold I3; simpl. do 2 f_equal; field.
Qed.

Lemma linalg_inv_Rodrigues rvec : ∃ R_inv, linalg_inv (Rodrigues rvec) = Ok R_inv.
Proof.
  unfold linalg_inv. rewrite det3_Rodrigues.
  destruct (Req_dec_T 1 0); [lra|]. by eexists.
Qed.

(** C9.  [reverse_project] always returns: the rotation matrix of the
    map has an inverse [R_inv], undoing the rotation on either side, and
    the result is [R_inv * (point - tvec)].  The zero axis-angle vector is
    the identity rotation, and with it and the zero translation as map
    pose a pointer translation [(a, b, c)] is returned unchanged. *)
Theorem reverse_project_correct (point rvec tvec : vec3) (a b c : R) :
  (∃ R_inv,
     linalg_inv (Rodrigues rvec) = Ok R_inv ∧
     (∀ v, mat_vec (Rodrigues rvec) (mat_vec R_inv v) = v) ∧
     (∀ v, mat_vec R_inv (mat_vec (Rodrigues rvec) v) = v) ∧
     reverse_project point rvec tvec = Ok (mat_vec R_inv (vsub point tvec))) ∧
  Rodrigues zero3 = I3 ∧
  reverse_project (a, b, c) zero3 zero3 = Ok (a, b, c).
Proof.
  split_and!.
  - destruct (linalg_inv_Rodrigues rvec) as [R_inv Hinv]. exists R_inv.
    split_and!; [done| | |].
    + intros v. exact (proj1 (linalg_inv_spec _ _ v Hinv)).
    + intros v. exact (proj2 (linalg_inv_spec _ _ v Hinv)).
    + unfold reverse_project. by rewrite Hinv.
  - apply Rodrigues_zero.
  - unfold reverse_project. rewrite Rodrigues_zero, linalg_inv_I3.
    unfold zero3, I3; simpl. do 2 f_equal; [f_equal|]; ring.
Qed.

(** The identity case on its own, for use by the detectors. *)
Lemma reverse_project_identity (p : vec3) : reverse_project p zero3 zero3 = Ok p.
Proof.
  destruct p as [[a b] c].
  unfold reverse_project. rewrite Rodrigues_zero, linalg_inv_I3.
  unfold zero3, I3; simpl. do 2 f_equal; [f_equal|]; ring.
Qed.

End GeometryFacts.

(** ** The two detectors *)

Module DetectFacts.
Import Matcher Geometry Detect Samples MatcherFacts GeometryFacts.

Lemma row_split r : ∃ d m, r = 4 * d + m ∧ m < 4.
Proof.
  exists (r `div` 4), (r `mod` 4). split.
  - apply Nat.div_mod_eq.
  - apply Nat.mod_upper_bound. lia.
Qed.

(** Masked selection only looks at the rows the mask keeps. *)
Lemma mask_rows_agree {A} (s1 s2 : list A) mask :
  length s1 = length s2 →
  (∀ r, mask !! r = Some true → s1 !! r = s2 !! r) →
  mask_rows s1 mask = mask_rows s2 mask.
Proof.
  intros Hlen Hagree. unfold mask_rows. rewrite <- Hlen.
  case_decide as Hm; [|done]. f_equal.
  revert s1 s2 Hlen Hagree Hm.
  induction mask as [|b mask IH]; intros s1 s2 Hlen Hagree Hm.
  - destruct s1, s2; done.
  - destruct s1 as [|x1 s1], s2 as [|x2 s2]; try done.
    cbn [zip_with]. rewrite !filter_cons. cbn [snd fmap list_fmap].
    assert (Hrest : fst <$> filter (λ rb, rb.2 = true) (zip s1 mask)
                  = fst <$> filter (λ rb, rb.2 = true) (zip s2 mask)).
    { apply IH; [by simplify_eq/=| |by simplify_eq/=].
      intros r Hr. apply (Hagree (S r)). done. }
    destruct b; simpl.
    + specialize (Hagree 0 eq_refl). simplify_eq/=.
      f_equal. exact Hrest.
    + done.
Qed.

(** The mask does not depend on the memory behind the scene array, and
    on the valid rows neither does the scene. *)
Lemma fold_mem_independent id_list obs mem1 mem2 :
  let a1 := foldl (visit_pure id_list) (arrays0 mem1 id_list) obs in
  let a2 := foldl (visit_pure id_list) (arrays0 mem2 id_list) obs in
  a1.2 = a2.2 ∧ length a1.1 = length a2.1 ∧
  ∀ r, a1.2 !! r = Some true → a1.1 !! r = a2.1 !! r.
Proof.
  intros a1 a2.
  destruct (arrays0_length mem1 id_list) as [H11 H12].
  destruct (arrays0_length mem2 id_list) as [H21 H22].
  destruct (fold_length id_list obs (arrays0 mem1 id_list)) as [F11 F12].
  destruct (fold_length id_list obs (arrays0 mem2 id_list)) as [F21 F22].
  fold a1 in F11, F12. fold a2 in F21, F22.
  split_and!.
  - apply list_eq. intros r.
    destruct (decide (r < 4 * length id_list)) as [Hr|Hr].
    + destruct (row_split r) as (d & m & -> & Hm).
      unfold a1, a2. rewrite !fold_mask by lia. done.
    + rewrite !lookup_ge_None_2 by lia. done.
  - lia.
  - intros r Hr. assert (r < 4 * length id_list).
    { apply lookup_lt_Some in Hr. lia. }
    destruct (row_split r) as (d & m & -> & Hm).
    unfold a1, a2 in *. rewrite fold_mask in Hr by lia.
    rewrite !fold_scene by lia.
    destruct (last_obs id_list d obs); [done|].
    unfold arrays0, np_zeros_bool in Hr; simpl in Hr.
    rewrite lookup_replicate_2 in Hr by lia. done.
Qed.

(** The map detector hands the solver valid rows only, so its result is
    the same whatever the unwritten scene rows hold. *)
Lemma ModelDetector_detect_valid_rows_only solvePnP self mem1 mem2 found :
  det_wf found →
  ModelDetector_detect solvePnP self mem1 found =
  ModelDetector_detect solvePnP self mem2 found.
Proof.
  intros Hwf. unfold ModelDetector_detect.
  rewrite !sort_corners_by_id_fold by done.
  destruct (fold_mem_independent (list_of_ids self) (observations found) mem1 mem2)
    as (Hmask & Hlen & Hrows).
  cbn [mbind py_bind].
  destruct (foldl _ (arrays0 mem1 _) _) as [s1 m1].
  destruct (foldl _ (arrays0 mem2 _) _) as [s2 m2].
  simpl in *. subst m2.
  by rewrite (mask_rows_agree s1 s2 m1 Hlen Hrows).
Qed.

(** With fewer than four valid rows both detectors give up before the
    solver is called. *)
Lemma detect_few solvePnP self mem found scene mask :
  det_wf found →
  sort_corners_by_id mem (det_corners found) (det_ids found) (list_of_ids self)
    = Ok (scene, mask) →
  count_valid mask < 4 →
  ModelDetector_detect solvePnP self mem found = Ok (false, None, None) ∧
  (∀ rvec tvec, PoseDetector_detect solvePnP self mem found rvec tvec = Ok None) ∧
  (∀ id, id ∈ det_seen found → id ∉ list_of_ids self).
Proof.
  intros Hwf Hsort Hfew.
  pose proof (few_valid_none mem found (list_of_ids self) Hwf) as Hnone.
  rewrite sort_corners_by_id_fold in Hsort by done.
  injection Hsort as Hsort. rewrite Hsort in Hnone. simpl in Hnone.
  destruct (Hnone Hfew) as [Hany Habs].
  unfold ModelDetector_detect, PoseDetector_detect.
  rewrite sort_corners_by_id_fold by done. rewrite Hsort.
  cbn [mbind py_bind]. rewrite Hany, orb_true_r. done.
Qed.

(** C1.  The pointer path does not keep to the valid rows.  For a stylus
    of two markers of which only the first is seen, two runs that differ
    only in what the freshly allocated scene array happened to hold give
    the same mask and the same valid rows, and the map detector treats
    them alike, but [PoseDetector.detect] passes the whole scene array
    to the solver and returns different positions. *)
Theorem PoseDetector_detect_reads_invalid_rows :
  (∃ sceneA sceneB mask,
     sort_corners_by_id mem_zeros (det_corners stylus_found) (det_ids stylus_found)
       (list_of_ids stylus_detector) = Ok (sceneA, mask) ∧
     sort_corners_by_id mem_ones (det_corners stylus_found) (det_ids stylus_found)
       (list_of_ids stylus_detector) = Ok (sceneB, mask) ∧
     count_valid mask = 4 ∧
     ∀ r, mask !! r = Some true → sceneA !! r = sceneB !! r) ∧
  ModelDetector_detect probe_solvePnP stylus_detector mem_zeros stylus_found =
  ModelDetector_detect probe_solvePnP stylus_detector mem_ones stylus_found ∧
  PoseDetector_detect probe_solvePnP stylus_detector mem_zeros stylus_found zero3 zero3
    = Ok (Some (4, 0, 0)%R) ∧
  PoseDetector_detect probe_solvePnP stylus_detector mem_ones stylus_found zero3 zero3
    = Ok (Some (8, 0, 0)%R) ∧
  PoseDetector_detect probe_solvePnP stylus_detector mem_zeros stylus_found zero3 zero3 ≠
  PoseDetector_detect probe_solvePnP stylus_detector mem_ones stylus_found zero3 zero3.
Proof.
  assert (HA : PoseDetector_detect probe_solvePnP stylus_detector mem_zeros
                 stylus_found zero3 zero3 = Ok (Some (4, 0, 0)%R)).
  { unfold PoseDetector_detect, probe_solvePnP; simpl.
    rewrite reverse_project_identity. simpl. do 4 f_equal. lra. }
  assert (HB : PoseDetector_detect probe_solvePnP stylus_detector mem_ones
                 stylus_found zero3 zero3 = Ok (Some (8, 0, 0)%R)).
  { unfold PoseDetector_detect, probe_solvePnP; simpl.
    rewrite reverse_project_identity. simpl. do 4 f_equal. lra. }
  split_and!.
  - eexists _, _, _. split_and!; [reflexivity|reflexivity|reflexivity|].
    intros [|[|[|[|[|[|[|[|r]]]]]]]]; simpl; done.
  - apply ModelDetector_detect_valid_rows_only. reflexivity.
  - exact HA.
  - exact HB.
  - rewrite HA, HB. intros [=]. lra.
Qed.

End DetectFacts.

(** ** Zone lookup *)

Module ZoneFacts.
Import Zone Samples.
Local Open Scope Z_scope.

Lemma py_int_IZR z : py_int (IZR z) = z.
Proof.
  unfold py_int. destruct (Rle_dec 0 (IZR z)) as [H|H].
  - symmetry. apply Int_part_spec. lra.
  - rewrite <- opp_IZR. rewrite <- (Int_part_spec (IZR (- z)) (- z)); [lia|lra].
Qed.

(** No colour list matches a bare number: the shapes differ. *)
Lemma match_color_scalar rgb v : match_color rgb (Scalar v) = false.
Proof. done. Qed.

Lemma idx_from_scalar i l v : idx_from i l (Scalar v) = -1.
Proof.
  revert i. induction l as [|h l IH]; intros i; [done|].
  cbn [idx_from]. by rewrite match_color_scalar.
Qed.

(** The pixel coordinates of a position, as [get_zone] computes them. *)
Lemma get_zone_outside (position : pt3) img ppc :
  ¬ (0 ≤ py_int (position.1.1 * ppc) < shape1 img ∧
     0 ≤ py_int (position.1.2 * ppc) < shape0 img) →
  get_zone position img ppc = Scalar 0.
Proof.
  destruct position as [[p0 p1] p2]; simpl. intros Hout.
  repeat case_bool_decide; simpl; tauto.
Qed.

End ZoneFacts.

(** ** The interaction policy *)

Module PolicyFacts.
Import Zone Policy Samples ZoneFacts.
Local Open Scope Z_scope.

Lemma push_gesture_eval m img self position :
  (zone_filter_cnt self < length (zone_filter self))%nat →
  push_gesture m img self position =
    Ok (if Rlt_dec (Rabs (position.2)) 2
        then stats_mode (zone_filter (pushed m img self position))
        else -1,
        pushed m img self position).
Proof.
  intros Hcnt. unfold push_gesture, pushed, store, raw_zone.
  case_decide; [|lia]. by destruct (Rlt_dec _ _).
Qed.

Lemma pushed_ok m img self position :
  policy_ok self → policy_ok (pushed m img self position).
Proof.
  intros [Hlen Hcnt]. split; unfold pushed, store; cbn [zone_filter zone_filter_cnt].
  - by rewrite length_insert.
  - apply Nat.mod_upper_bound. done.
Qed.

Lemma policy_init_ok : policy_ok policy_init.
Proof. split; simpl; unfold zone_filter_size; lia. Qed.

(** C7.  When the pixel coordinates of a position fall outside the
    reference image, the raw zone is -1 for every zone registry, and -1
    is what [push_gesture] stores at the cursor of the ring buffer. *)
Theorem out_of_bounds_raw_zone m img self (position : pt3) :
  ¬ (0 ≤ py_int (position.1.1 * pixels_per_cm m) < shape1 img ∧
     0 ≤ py_int (position.1.2 * pixels_per_cm m) < shape0 img) →
  policy_ok self →
  raw_zone m img position = -1 ∧
  ∃ zone self',
    push_gesture m img self position = Ok (zone, self') ∧
    zone_filter self' = <[zone_filter_cnt self := -1]> (zone_filter self) ∧
    zone_filter self' !! zone_filter_cnt self = Some (-1).
Proof.
  intros Hout [Hlen Hcnt].
  assert (Hraw : raw_zone m img position = -1).
  { unfold raw_zone, get_dict_idx_from_color.
    rewrite get_zone_outside by done. apply idx_from_scalar. }
  split; [done|].
  eexists _, _. rewrite push_gesture_eval by lia. split; [done|].
  unfold pushed; simpl. rewrite Hraw. split; [done|].
  apply list_lookup_insert_eq. lia.
Qed.

Lemma out_of_bounds_raw_zone_witness :
  raw_zone black_model two_zone_image off_image = -1 ∧
  ∃ zone self',
    push_gesture black_model two_zone_image policy_init off_image = Ok (zone, self') ∧
    zone_filter self' = <[zone_filter_cnt policy_init := -1]> (zone_filter policy_init) ∧
    zone_filter self' !! zone_filter_cnt policy_init = Some (-1).
Proof.
  apply (out_of_bounds_raw_zone black_model two_zone_image policy_init off_image).
  - simpl. replace (-1 * 1)%R with (IZR (-1)) by lra. rewrite py_int_IZR. lia.
  - apply policy_init_ok.
Defined.

(** C5.  With [|z| >= 2] the call returns -1 whatever the ring buffer
    holds; with [|z| < 2] it returns the mode of the buffer as it stands
    after the write.  The buffer is updated alike in both cases. *)
Theorem push_gesture_gate m img self (position : pt3) :
  policy_ok self →
  ((Rabs (position.2) >= 2)%R →
     push_gesture m img self position = Ok (-1, pushed m img self position)) ∧
  ((Rabs (position.2) < 2)%R →
     push_gesture m img self position =
       Ok (stats_mode (zone_filter (pushed m img self position)),
           pushed m img self position)).
Proof.
  intros [Hlen Hcnt]. rewrite push_gesture_eval by lia.
  split; intros Hz; destruct (Rlt_dec _ _); try done; lra.
Qed.

Lemma push_gesture_gate_witness :
  ((Rabs (on_red.2) >= 2)%R →
     push_gesture two_zone_model two_zone_image policy_init on_red
       = Ok (-1, pushed two_zone_model two_zone_image policy_init on_red)) ∧
  ((Rabs (on_red.2) < 2)%R →
     push_gesture two_zone_model two_zone_image policy_init on_red =
       Ok (stats_mode (zone_filter (pushed two_zone_model two_zone_image policy_init on_red)),
           pushed two_zone_model two_zone_image policy_init on_red)).
Proof.
  apply (push_gesture_gate two_zone_model two_zone_image policy_init on_red).
  apply policy_init_ok.
Defined.

(** *** The mode *)

Lemma elem_of_insert_unique v x l :
  v ∈ insert_unique x l ↔ v = x ∨ v ∈ l.
Proof.
  induction l as [|y l IH]; cbn [insert_unique].
  - rewrite list_elem_of_singleton, elem_of_nil. tauto.
  - repeat case_decide; rewrite ?elem_of_cons, ?IH; subst; tauto.
Qed.

Lemma insert_unique_sorted x l :
  StronglySorted Z.lt l → StronglySorted Z.lt (insert_unique x l).
Proof.
  induction 1 as [|y l Hs IH Hall]; cbn [insert_unique].
  - repeat constructor.
  - repeat case_decide; subst.
    + constructor; [by constructor|]. constructor; [done|].
      eapply Forall_impl; [exact Hall|]. intros; simpl in *; lia.
    + by constructor.
    + constructor; [done|]. apply Forall_forall.
      intros v [->|Hv]%elem_of_insert_unique; [lia|].
      rewrite Forall_forall in Hall. by apply Hall.
Qed.

Lemma np_unique_sorted a : StronglySorted Z.lt (np_unique a).
Proof.
  induction a as [|x a IH]; simpl; [constructor|]. by apply insert_unique_sorted.
Qed.

Lemma elem_of_np_unique v a : v ∈ np_unique a ↔ v ∈ a.
Proof.
  induction a as [|x a IH]; simpl; [done|].
  rewrite elem_of_insert_unique, elem_of_cons, IH. done.
Qed.

Lemma count_of_pos a v : v ∈ a ↔ (0 < count_of a v)%nat.
Proof.
  unfold count_of. induction a as [|x a IH].
  - rewrite elem_of_nil. simpl. lia.
  - rewrite elem_of_cons, filter_cons. case_decide; simpl; [|rewrite IH].
    + split; [lia|]. intros _. by left.
    + split; [intros [?|?]; [congruence|done]|tauto].
Qed.

Lemma scan_inv_fold a seen rest acc :
  StronglySorted Z.lt (seen ++ rest) →
  (∀ v, v ∈ rest → v ∈ a) →
  scan_inv a seen acc →
  scan_inv a (seen ++ rest) (foldl (mode_step a) acc rest).
Proof.
  revert seen acc. induction rest as [|s rest IH]; intros seen acc Hsorted Hin Hinv.
  - by rewrite app_nil_r.
  - cbn [foldl]. rewrite (cons_middle s seen rest), (assoc_L (++)).
    apply IH.
    + by rewrite <- (assoc_L (++)).
    + intros v Hv. apply Hin. by right.
    + assert (Hpos : (0 < count_of a s)%nat).
      { apply count_of_pos, Hin. left. }
      assert (Hlt : ∀ v, v ∈ seen → v < s).
      { intros v Hv. eapply (StronglySorted_app_1_elem_of Z.lt seen (s :: rest));
          [done|done|left]. }
      destruct acc as [mf cnt]. unfold mode_step, scan_inv in *; simpl in *.
      right. case_bool_decide as Hc; simpl.
      * rewrite Nat.max_l by lia. split_and!.
        -- apply elem_of_app. right. left.
        -- done.
        -- intros v [Hv| ->%list_elem_of_singleton]%elem_of_app; [|lia].
           destruct Hinv as [[-> _]|(_ & _ & Hle & _)]; [by apply elem_of_nil in Hv|].
           specialize (Hle v Hv). lia.
        -- intros v [Hv| ->%list_elem_of_singleton]%elem_of_app; [|lia].
           intros Hvc.
           destruct Hinv as [[-> _]|(_ & _ & Hle & _)]; [by apply elem_of_nil in Hv|].
           specialize (Hle v Hv). lia.
      * destruct Hinv as [[-> ->]|(Hmf & Hcnt & Hle & Hmin)]; [lia|].
        rewrite Nat.max_r by lia. split_and!.
        -- apply elem_of_app. by left.
        -- done.
        -- intros v [Hv| ->%list_elem_of_singleton]%elem_of_app; [by apply Hle|lia].
        -- intros v [Hv| ->%list_elem_of_singleton]%elem_of_app Hvc; [by apply Hmin|].
           specialize (Hlt mf Hmf). lia.
Qed.

Lemma stats_mode_smallest a : a ≠ [] → is_mode_smallest a (stats_mode a).
Proof.
  intros Hne. unfold stats_mode.
  pose proof (scan_inv_fold a [] (np_unique a) (0, 0%nat)) as H.
  simpl in H. specialize (H (np_unique_sorted a)).
  destruct H as [[Hnil _]|(Hmf & Hcnt & Hle & Hmin)].
  - intros v Hv. by apply elem_of_np_unique.
  - by left.
  - destruct a as [|x a]; [done|].
    assert (x ∈ np_unique (x :: a)) as Hx by (apply elem_of_np_unique; left).
    rewrite Hnil in Hx. by apply elem_of_nil in Hx.
  - set (acc := foldl _ _ _) in *.
    assert (Hmfa : acc.1 ∈ a) by (by apply elem_of_np_unique).
    assert (Hpos : (0 < count_of a acc.1)%nat) by (by apply count_of_pos).
    split_and!; [done| |].
    + intros v. destruct (decide (v ∈ a)) as [Hv|Hv].
      * rewrite <- Hcnt. by apply Hle, elem_of_np_unique.
      * rewrite count_of_pos in Hv. lia.
    + intros v Hv. apply Hmin; [|by rewrite Hcnt].
      apply elem_of_np_unique, count_of_pos. lia.
Qed.

(** *** Runs of classifications *)

(** From a well-formed filter a run never raises, and its final filter
    is the fold of the stores. *)
Lemma pushes_state m img positions self :
  policy_ok self →
  ∃ zones, pushes m img self positions =
             Ok (zones, foldl store self (raw_zone m img <$> positions)).
Proof.
  revert self. induction positions as [|p rest IH]; intros self Hok.
  - by exists [].
  - cbn [pushes]. rewrite push_gesture_eval by (destruct Hok; lia).
    cbn [mbind py_bind].
    destruct (IH (pushed m img self p) (pushed_ok m img self p Hok)) as [zones ->].
    by eexists.
Qed.

Lemma pushes_ok m img positions self zones self' :
  policy_ok self →
  pushes m img self positions = Ok (zones, self') →
  policy_ok self'.
Proof.
  intros Hok Hrun. destruct (pushes_state m img positions self Hok) as [zs Hzs].
  rewrite Hzs in Hrun. injection Hrun as _ <-.
  clear Hzs. revert self Hok. induction positions as [|p rest IH]; intros self Hok; [done|].
  cbn [fmap list_fmap foldl]. apply IH. by apply pushed_ok.
Qed.

Lemma raw_zone_on_red : raw_zone two_zone_model two_zone_image on_red = 0.
Proof.
  unfold raw_zone, get_zone, on_red, two_zone_model; simpl.
  rewrite Rmult_1_r, py_int_IZR. reflexivity.
Qed.

Lemma raw_zone_on_green : raw_zone two_zone_model two_zone_image on_green = 1.
Proof.
  unfold raw_zone, get_zone, on_green, two_zone_model; simpl.
  rewrite !Rmult_1_r, !py_int_IZR. reflexivity.
Qed.

Lemma touching_origin_plane (x y : R) : (Rabs ((x, y, 0%R).2) < 2)%R.
Proof. simpl. rewrite Rabs_R0. lra. Qed.

(** C6, as amended.  With the pointer on the map, the zone returned is
    the mode of the ten entries of the ring buffer as it stands after the
    raw zone has been written at the cursor; among values tied for most
    frequent, the smallest one is returned. *)
Theorem push_gesture_mode m img self (position : pt3) :
  policy_ok self →
  (Rabs (position.2) < 2)%R →
  ∃ zone self',
    push_gesture m img self position = Ok (zone, self') ∧
    zone_filter self' =
      <[zone_filter_cnt self := raw_zone m img position]> (zone_filter self) ∧
    length (zone_filter self') = 10%nat ∧
    is_mode_smallest (zone_filter self') zone.
Proof.
  intros Hok Hz. pose proof (pushed_ok m img self position Hok) as [Hlen' _].
  destruct Hok as [Hlen Hcnt].
  exists (stats_mode (zone_filter (pushed m img self position))),
         (pushed m img self position).
  rewrite push_gesture_eval by lia.
  destruct (Rlt_dec _ _); [|lra].
  split_and!; [done|done|done|].
  apply stats_mode_smallest. intros Hnil. rewrite Hnil in Hlen'. done.
Qed.

Lemma push_gesture_mode_witness :
  ∃ zone self',
    push_gesture two_zone_model two_zone_image policy_init on_red = Ok (zone, self') ∧
    zone_filter self' =
      <[zone_filter_cnt policy_init := raw_zone two_zone_model two_zone_image on_red]>
        (zone_filter policy_init) ∧
    length (zone_filter self') = 10%nat ∧
    is_mode_smallest (zone_filter self') zone.
Proof.
  apply (push_gesture_mode two_zone_model two_zone_image policy_init on_red).
  - apply policy_init_ok.
  - apply touching_origin_plane.
Defined.

(** C6, as stated, fails: from the initial filter, five touches of the
    green zone (index 1) followed by five touches of the red zone
    (index 0) leave the buffer tied five to five with 1 met first, yet
    the last call returns 0. *)
Lemma mode_first_encountered_counterexample :
  ∃ zones self zone self',
    pushes two_zone_model two_zone_image policy_init
      (replicate 5 on_green ++ replicate 4 on_red) = Ok (zones, self) ∧
    (Rabs (on_red.2) < 2)%R ∧
    push_gesture two_zone_model two_zone_image self on_red = Ok (zone, self') ∧
    zone_filter self' = [1; 1; 1; 1; 1; 0; 0; 0; 0; 0] ∧
    zone = 0 ∧
    mode_first_encountered (zone_filter self') = 1 ∧
    zone ≠ mode_first_encountered (zone_filter self').
Proof.
  destruct (pushes_state two_zone_model two_zone_image
              (replicate 5 on_green ++ replicate 4 on_red) policy_init policy_init_ok)
    as [zones Hrun].
  cbn [replicate app fmap list_fmap] in Hrun.
  rewrite raw_zone_on_red, raw_zone_on_green in Hrun.
  eexists zones, _, _, _. split; [exact Hrun|].
  split; [apply touching_origin_plane|].
  rewrite push_gesture_eval by (vm_compute; lia).
  destruct (Rlt_dec _ _) as [_|Hn]; [|destruct Hn; apply touching_origin_plane].
  unfold pushed. rewrite raw_zone_on_red.
  split_and!; [reflexivity|reflexivity|reflexivity|reflexivity|].
  vm_compute. done.
Qed.

End PolicyFacts.

(** ** The dispatcher *)

Module PlayerFacts.
Import Player Samples.
Local Open Scope R_scope.

Lemma convey_eval self zone t_check t_set play_ok h :
  py_getitem (hotspots (player_model self)) zone = Ok h →
  convey self zone t_check t_set play_ok =
    if decide (prev_zone_name self ≠ textDescription h) then
      if Rgt_dec (t_check - start_time self) 0.5 then
        sound ← py_getitem (sound_files self) zone;
        Ok (dispatched self h t_set, [play_event play_ok sound])
      else Ok (self, [])
    else Ok (self, []).
Proof. intros Hh. unfold convey. rewrite Hh. done. Qed.

Lemma convey_fires self zone t_check t_set play_ok h sound :
  py_getitem (hotspots (player_model self)) zone = Ok h →
  py_getitem (sound_files self) zone = Ok sound →
  prev_zone_name self ≠ textDescription h →
  t_check - start_time self > 0.5 →
  convey self zone t_check t_set play_ok =
    Ok (dispatched self h t_set, [play_event play_ok sound]).
Proof.
  intros Hh Hs Hname Ht. rewrite (convey_eval _ _ _ _ _ h) by done.
  case_decide; [|done]. destruct (Rgt_dec _ _); [|done]. by rewrite Hs.
Qed.

Lemma convey_same_name self zone t_check t_set play_ok h :
  py_getitem (hotspots (player_model self)) zone = Ok h →
  prev_zone_name self = textDescription h →
  convey self zone t_check t_set play_ok = Ok (self, []).
Proof.
  intros Hh Hname. rewrite (convey_eval _ _ _ _ _ h) by done.
  case_decide; done.
Qed.

Lemma convey_cooling self zone t_check t_set play_ok h :
  py_getitem (hotspots (player_model self)) zone = Ok h →
  t_check - start_time self <= 0.5 →
  convey self zone t_check t_set play_ok = Ok (self, []).
Proof.
  intros Hh Ht. rewrite (convey_eval _ _ _ _ _ h) by done.
  case_decide; [|done]. destruct (Rgt_dec _ _); [lra|done].
Qed.

(** C8, as amended.  For a zone whose hotspot and sound are both found,
    a call plays and updates the state exactly when the description differs
    from the last dispatched one and strictly more than 0.5 s have passed
    since [start_time]; otherwise it does nothing.  After a dispatch, a
    call for any zone within 0.5 s does nothing (one timer for all zones),
    and a call for the same zone does nothing at any time. *)
Theorem convey_dispatch self zone t_check t_set play_ok h sound :
  py_getitem (hotspots (player_model self)) zone = Ok h →
  py_getitem (sound_files self) zone = Ok sound →
  ((prev_zone_name self ≠ textDescription h ∧ t_check - start_time self > 0.5) →
     convey self zone t_check t_set play_ok =
       Ok (dispatched self h t_set, [play_event play_ok sound])) ∧
  (¬ (prev_zone_name self ≠ textDescription h ∧ t_check - start_time self > 0.5) →
     convey self zone t_check t_set play_ok = Ok (self, [])) ∧
  (∀ zone2 h2 t t' play2,
     py_getitem (hotspots (player_model self)) zone2 = Ok h2 →
     t - t_set <= 0.5 →
     convey (dispatched self h t_set) zone2 t t' play2 =
       Ok (dispatched self h t_set, [])) ∧
  (∀ t t' play2,
     convey (dispatched self h t_set) zone t t' play2 =
       Ok (dispatched self h t_set, [])).
Proof.
  intros Hh Hs. split_and!.
  - intros [Hname Ht]. by apply convey_fires.
  - intros Hno. rewrite (convey_eval _ _ _ _ _ h) by done.
    case_decide; [|done]. destruct (Rgt_dec _ _); [|done]. tauto.
  - intros zone2 h2 t t' play2 Hh2 Ht. by apply (convey_cooling _ _ _ _ _ h2).
  - intros t t' play2. by apply (convey_same_name _ _ _ _ _ h).
Qed.

Lemma convey_dispatch_witness :
  let self := player_init two_zone_model all_files 0 in
  ((prev_zone_name self ≠ textDescription red_hotspot ∧ 1 - start_time self > 0.5) →
     convey self 0 1 1 backend_ok =
       Ok (dispatched self red_hotspot 1, [play_event backend_ok "red.wav"])) ∧
  (¬ (prev_zone_name self ≠ textDescription red_hotspot ∧ 1 - start_time self > 0.5) →
     convey self 0 1 1 backend_ok = Ok (self, [])) ∧
  (∀ zone2 h2 t t' play2,
     py_getitem (hotspots (player_model self)) zone2 = Ok h2 →
     t - 1 <= 0.5 →
     convey (dispatched self red_hotspot 1) zone2 t t' play2 =
       Ok (dispatched self red_hotspot 1, [])) ∧
  (∀ t t' play2,
     convey (dispatched self red_hotspot 1) 0 t t' play2 =
       Ok (dispatched self red_hotspot 1, [])).
Proof.
  apply (convey_dispatch (player_init two_zone_model all_files 0) 0 1 1
           backend_ok red_hotspot "red.wav"); reflexivity.
Defined.

(** C8, as stated, fails on the boundary: the description differs from
    the last dispatched one and 0.5 s have elapsed, yet nothing is played
    and the state is left as it was. *)
Lemma convey_boundary_counterexample :
  let self := player_init two_zone_model all_files 0 in
  py_getitem (hotspots (player_model self)) 0 = Ok red_hotspot ∧
  py_getitem (sound_files self) 0 = Ok "red.wav" ∧
  prev_zone_name self ≠ textDescription red_hotspot ∧
  0.5 - start_time self >= 0.5 ∧
  convey self 0 0.5 0.5 backend_ok = Ok (self, []).
Proof.
  simpl. split_and!; [reflexivity|reflexivity|done|lra|].
  apply (convey_cooling _ _ _ _ _ red_hotspot); [reflexivity|simpl; lra].
Qed.

(** C4.  A missing audio file makes the dispatcher raise.  With no file
    on disk the sound list is empty and the lookup, which sits outside
    the [try], raises; with only the green file on disk the list is
    shifted, so the red zone plays the green cue and the green zone
    raises.  A failing backend alone is caught, and the state then
    records the attempted zone. *)
Theorem convey_missing_asset_raises :
  convey (player_init two_zone_model no_files 0) 0 1 1 backend_ok = Raise IndexError ∧
  sound_files (player_init two_zone_model only_green 0) = ["green.wav"] ∧
  convey (player_init two_zone_model only_green 0) 0 1 1 backend_ok =
    Ok (dispatched (player_init two_zone_model only_green 0) red_hotspot 1,
        [Played "green.wav"]) ∧
  convey (player_init two_zone_model only_green 0) 1 1 1 backend_ok = Raise IndexError ∧
  convey (player_init two_zone_model all_files 0) 0 1 1 backend_down =
    Ok (dispatched (player_init two_zone_model all_files 0) red_hotspot 1,
        [PlayFailed "red.wav"]).
Proof.
  assert (Ht : 1 - 0 > 0.5) by lra.
  split_and!.
  - unfold convey; simpl. destruct (Rgt_dec _ _); [done|lra].
  - reflexivity.
  - by apply convey_fires.
  - unfold convey; simpl. destruct (Rgt_dec _ _); [done|lra].
  - by apply convey_fires.
Qed.

Lemma conveys_cooling self zone h (early : list call) :
  py_getitem (hotspots (player_model self)) zone = Ok h →
  Forall (λ c, call_zone c = zone ∧ call_t_check c - start_time self < 0.5) early →
  conveys self early = Ok (self, []).
Proof.
  intros Hh. induction 1 as [|c early [Hz Ht] _ IH]; [done|].
  cbn [conveys]. rewrite Hz, (convey_cooling _ _ _ _ _ h) by (done || lra).
  cbn [mbind py_bind]. rewrite IH. done.
Qed.

Lemma conveys_app self calls1 calls2 self1 evs1 :
  conveys self calls1 = Ok (self1, evs1) →
  conveys self (calls1 ++ calls2) =
    '(self2, evs2) ← conveys self1 calls2; Ok (self2, evs1 ++ evs2).
Proof.
  revert self self1 evs1. induction calls1 as [|c calls1 IH]; intros self self1 evs1.
  - intros [= -> <-]. simpl. by destruct (conveys self1 calls2) as [[??]|].
  - cbn [conveys app]. destruct (convey _ _ _ _ _) as [[s' e']|]; [|done].
    cbn [mbind py_bind].
    destruct (conveys s' calls1) as [[s'' e'']|] eqn:E; [|done].
    cbn [mbind py_bind]. intros [= <- <-]. rewrite (IH _ _ _ E).
    destruct (conveys s'' calls2) as [[??]|]; simpl; [|done].
    by rewrite (assoc_L (++)).
Qed.

(** C10.  A call for a zone with a new description that arrives before
    0.5 s have elapsed leaves the state untouched and plays nothing;
    however many such calls are made, the first later call for that zone
    made after the cooldown plays and records the zone. *)
Theorem convey_pending_retry self zone h sound (early : list call) (late : call) :
  py_getitem (hotspots (player_model self)) zone = Ok h →
  py_getitem (sound_files self) zone = Ok sound →
  prev_zone_name self ≠ textDescription h →
  Forall (λ c, call_zone c = zone ∧ call_t_check c - start_time self < 0.5) early →
  call_zone late = zone →
  call_t_check late - start_time self > 0.5 →
  (∀ c, c ∈ early →
     convey self zone (call_t_check c) (call_t_set c) (call_play_ok c) = Ok (self, [])) ∧
  conveys self (early ++ [late]) =
    Ok (dispatched self h (call_t_set late), [play_event (call_play_ok late) sound]).
Proof.
  intros Hh Hs Hname Hearly Hz Ht. split.
  - intros c Hc. rewrite Forall_forall in Hearly. destruct (Hearly c Hc) as [_ Hc'].
    apply (convey_cooling _ _ _ _ _ h); [done|lra].
  - rewrite (conveys_app _ _ _ self []) by (by eapply conveys_cooling).
    cbn [conveys]. rewrite Hz, (convey_fires _ _ _ _ _ h sound) by done.
    done.
Qed.

Lemma convey_pending_retry_witness :
  let self := player_init two_zone_model all_files 0 in
  (∀ c, c ∈ early_calls →
     convey self 0 (call_t_check c) (call_t_set c) (call_play_ok c) = Ok (self, [])) ∧
  conveys self (early_calls ++ [late_call]) =
    Ok (dispatched self red_hotspot (call_t_set late_call),
        [play_event (call_play_ok late_call) "red.wav"]).
Proof.
  apply (convey_pending_retry (player_init two_zone_model all_files 0) 0
           red_hotspot "red.wav" early_calls late_call).
  - reflexivity.
  - reflexivity.
  - done.
  - repeat constructor; simpl; lra.
  - reflexivity.
  - simpl. lra.
Defined.

End PlayerFacts.

(** ** The main loop *)

Module MainFacts.
Import Matcher Geometry Detect Zone Policy Player Main Samples.
Import MatcherFacts DetectFacts.

Lemma ModelDetector_detect_pose solvePnP self mem found rvec tvec :
  ModelDetector_detect solvePnP self mem found = Ok (true, rvec, tvec) →
  is_Some rvec ∧ is_Some tvec.
Proof.
  unfold ModelDetector_detect.
  destruct (sort_corners_by_id _ _ _ _) as [[scene mask]|]; [|done].
  cbn [mbind py_bind]. destruct (_ || _); [done|].
  destruct (mask_rows (obj self) mask); [|done]. cbn [mbind py_bind].
  destruct (mask_rows scene mask); [|done]. cbn [mbind py_bind].
  destruct (solvePnP _ _ _) as [[[? ?] ?]|]; [|done]. cbn [mbind py_bind].
  intros [= -> <- <-]. split; by eexists.
Qed.

(** A frame that is skipped leaves the rest of the run as it would be
    from the same filter and dispatch state. *)
Lemma run_skip {frame : Type} (detectMarkers : frame → string → detection)
    solvePnP c s s' (w : tick frame) :
  loop_body detectMarkers solvePnP c s w = Ok (Continue s' []) →
  ∀ ws, run detectMarkers solvePnP c s (w :: ws) = run detectMarkers solvePnP c s' ws.
Proof.
  intros Hbody ws. cbn [run]. rewrite Hbody. cbn [mbind py_bind].
  by destruct (run detectMarkers solvePnP c s' ws) as [[? ?]|].
Qed.

(** C3.  In a frame that is read and not interrupted by the quit key:
    if the map layout has fewer than four valid correspondences, then no
    seen id belongs to the layout, the map detector returns the failure
    triple and the loop body goes on to the next frame with the filter
    and the dispatch state untouched; likewise, if the stylus layout has
    fewer than four, the pointer detector returns no position and the
    loop body, once the map detector has returned, goes on to the next
    frame.  In both cases the loop carries on with the frames that
    follow. *)
Theorem few_correspondences_skip_frame {frame : Type}
    (detectMarkers : frame → string → detection)
    (solvePnP : list pt3 → list pt2 → mat3 → py pnp_result)
    (c : config) (s : app) (w : tick frame) :
  det_wf (detectMarkers (cap_frame w) (aruco_dict (model_detector c))) →
  det_wf (detectMarkers (cap_frame w) (aruco_dict (pose_detector c))) →
  cap_isOpened w = true →
  cap_ret w = true →
  (loop_has_run s = true → waitKey w ≠ 27%Z ∧ waitKey w ≠ 113%Z) →
  (∀ scene mask,
     sort_corners_by_id (mem_model w)
       (det_corners (detectMarkers (cap_frame w) (aruco_dict (model_detector c))))
       (det_ids (detectMarkers (cap_frame w) (aruco_dict (model_detector c))))
       (list_of_ids (model_detector c)) = Ok (scene, mask) →
     count_valid mask < 4 →
     (∀ id, id ∈ det_seen (detectMarkers (cap_frame w) (aruco_dict (model_detector c))) →
            id ∉ list_of_ids (model_detector c)) ∧
     ModelDetector_detect solvePnP (model_detector c) (mem_model w)
       (detectMarkers (cap_frame w) (aruco_dict (model_detector c)))
       = Ok (false, None, None) ∧
     loop_body detectMarkers solvePnP c s w =
       Ok (Continue (App true (interact s) (camio_player s)) []) ∧
     (∀ ws, run detectMarkers solvePnP c s (w :: ws) =
            run detectMarkers solvePnP c (App true (interact s) (camio_player s)) ws)) ∧
  (∀ scene mask,
     sort_corners_by_id (mem_stylus w)
       (det_corners (detectMarkers (cap_frame w) (aruco_dict (pose_detector c))))
       (det_ids (detectMarkers (cap_frame w) (aruco_dict (pose_detector c))))
       (list_of_ids (pose_detector c)) = Ok (scene, mask) →
     count_valid mask < 4 →
     (∀ id, id ∈ det_seen (detectMarkers (cap_frame w) (aruco_dict (pose_detector c))) →
            id ∉ list_of_ids (pose_detector c)) ∧
     (∀ rvec tvec,
        PoseDetector_detect solvePnP (pose_detector c) (mem_stylus w)
          (detectMarkers (cap_frame w) (aruco_dict (pose_detector c))) rvec tvec
          = Ok None) ∧
     (∀ r,
        ModelDetector_detect solvePnP (model_detector c) (mem_model w)
          (detectMarkers (cap_frame w) (aruco_dict (model_detector c))) = Ok r →
        loop_body detectMarkers solvePnP c s w =
          Ok (Continue (App true (interact s) (camio_player s)) []) ∧
        (∀ ws, run detectMarkers solvePnP c s (w :: ws) =
               run detectMarkers solvePnP c (App true (interact s) (camio_player s)) ws))).
Proof.
  intros Hwfm Hwfp Hopen Hret Hkey.
  assert (Hgo : loop_has_run s &&
                (bool_decide (waitKey w = 27%Z) || bool_decide (waitKey w = 113%Z)) = false).
  { destruct (loop_has_run s); [|done]. destruct (Hkey eq_refl) as [H1 H2].
    by rewrite !bool_decide_eq_false_2. }
  split.
  - intros scene mask Hsort Hfew.
    destruct (detect_few solvePnP _ _ _ _ _ Hwfm Hsort Hfew) as (Hm & _ & Habs).
    assert (Hbody : loop_body detectMarkers solvePnP c s w =
                    Ok (Continue (App true (interact s) (camio_player s)) [])).
    { unfold loop_body. rewrite Hopen, Hret, Hgo. cbn [negb]. by rewrite Hm. }
    split_and!; [done|done|done|]. by apply run_skip.
  - intros scene mask Hsort Hfew.
    destruct (detect_few solvePnP _ _ _ _ _ Hwfp Hsort Hfew) as (_ & Hp & Habs).
    split_and!; [done|done|].
    intros [[retval rvec] tvec] Hm.
    assert (Hbody : loop_body detectMarkers solvePnP c s w =
                    Ok (Continue (App true (interact s) (camio_player s)) [])).
    { unfold loop_body. rewrite Hopen, Hret, Hgo. cbn [negb].
      rewrite Hm. cbn [mbind py_bind]. destruct retval; [|done].
      apply ModelDetector_detect_pose in Hm as [[rv ->] [tv ->]].
      cbn [negb]. rewrite Hp. done. }
    split; [done|]. by apply run_skip.
Qed.

Lemma few_correspondences_skip_frame_witness :
  ModelDetector_detect probe_solvePnP stylus_detector mem_zeros (blind_detector tt "DICT_4X4_50")
    = Ok (false, None, None) ∧
  (∀ rvec tvec,
     PoseDetector_detect probe_solvePnP stylus_detector mem_ones
       (blind_detector tt "DICT_4X4_50") rvec tvec = Ok None) ∧
  loop_body blind_detector probe_solvePnP sample_config sample_app sample_tick =
    Ok (Continue (App true (interact sample_app) (camio_player sample_app)) []).
Proof.
  destruct (few_correspondences_skip_frame blind_detector probe_solvePnP
              sample_config sample_app sample_tick) as [Hmap Hptr].
  - reflexivity.
  - reflexivity.
  - reflexivity.
  - reflexivity.
  - intros Hrun. discriminate Hrun.
  - destruct (Hmap _ _ eq_refl) as (_ & Hm & Hloop & _); [vm_compute; lia|].
    destruct (Hptr _ _ eq_refl) as (_ & Hp & _); [vm_compute; lia|].
    split_and!; [exact Hm|exact Hp|exact Hloop].
Defined.

End MainFacts.


(** ** More on the correspondence matcher *)

Module MatcherMore.
Import Matcher Samples MoreSamples MatcherFacts.

Lemma loop_short id_list pre l corners a :
  length l < length corners →
  loop id_list (Some (pre ++ l)) (length pre) corners a = Raise IndexError.
Proof.
  revert pre l a. induction corners as [|q rest IH]; intros pre l a Hlen.
  - simpl in Hlen. lia.
  - cbn [loop]. destruct l as [|id l].
    + rewrite app_nil_r, lookup_ge_None_2 by lia. done.
    + rewrite list_lookup_middle by done.
      rewrite visit_visit_pure. cbn [mbind py_bind].
      specialize (IH (pre ++ [id]) l (visit_pure id_list a (id, q))).
      rewrite <- (assoc_L (++)), length_app in IH. cbn [app length] in IH.
      rewrite Nat.add_1_r in IH. apply IH. simpl in Hlen. lia.
Qed.

(** When the detector hands over more corner sets than ids, the loop
    raises when it reads the first missing id: [TypeError] if there is no
    id array at all, [IndexError] if the array is too short. *)
Theorem sort_corners_by_id_missing_ids mem corners ids id_list :
  length (default [] ids) < length corners →
  sort_corners_by_id mem corners ids id_list =
    Raise (if ids is Some _ then IndexError else TypeError).
Proof.
  intros Hlen. unfold sort_corners_by_id. destruct ids as [l|]; simpl in Hlen.
  - by apply (loop_short id_list [] l).
  - destruct corners; [simpl in Hlen; lia|done].
Qed.

Lemma sort_corners_by_id_missing_ids_witness :
  sort_corners_by_id mem_zeros (det_corners headless_detection)
    (det_ids headless_detection) sample_layout = Raise TypeError.
Proof.
  apply (sort_corners_by_id_missing_ids mem_zeros (det_corners headless_detection)
           (det_ids headless_detection) sample_layout).
  simpl. lia.
Defined.

(** Row [4k+j] is valid exactly when the id at layout position [k] was
    seen in the frame and [k] is the first position of that id in the
    layout: a layout id listed twice only ever fills its first slot. *)
Theorem mask_row_valid_iff mem d id_list scene mask k j :
  det_wf d →
  sort_corners_by_id mem (det_corners d) (det_ids d) id_list = Ok (scene, mask) →
  k < length id_list → j < 4 →
  mask !! (4 * k + j) = Some true ↔
  ∃ id, id ∈ det_seen d ∧ id_list !! k = Some id ∧
        ∀ k', k' < k → id_list !! k' ≠ Some id.
Proof.
  intros Hwf Hsort Hk Hj.
  rewrite sort_corners_by_id_fold in Hsort by done. injection Hsort as Hsort.
  assert (mask = (foldl (visit_pure id_list) (arrays0 mem id_list) (observations d)).2)
    as -> by (by rewrite Hsort).
  rewrite fold_mask_flag by done.
  assert (Hobs : (observations d).*1 = det_seen d).
  { apply fst_zip. by rewrite (det_wf_length d Hwf). }
  split.
  - intros [= Hflag]. apply bool_decide_eq_true in Hflag.
    apply last_obs_is_Some in Hflag as (id & Hin & Hidx).
    exists id. rewrite <- Hobs. split; [done|]. by apply py_index_Some.
  - intros (id & Hin & Hlook & Hfirst). f_equal. apply bool_decide_eq_true.
    apply last_obs_is_Some. exists id. rewrite Hobs. split; [done|].
    by apply py_index_lookup.
Qed.

Lemma mask_row_valid_iff_witness :
  ∃ scene mask,
    sort_corners_by_id mem_zeros (det_corners sample_detection)
      (det_ids sample_detection) sample_layout = Ok (scene, mask) ∧
    (mask !! (4 * 1 + 0) = Some true ↔
     ∃ id, id ∈ det_seen sample_detection ∧ sample_layout !! 1 = Some id ∧
           ∀ k', k' < 1 → sample_layout !! k' ≠ Some id).
Proof.
  eexists _, _. split; [reflexivity|].
  eapply (mask_row_valid_iff mem_zeros sample_detection sample_layout _ _ 1 0).
  - reflexivity.
  - reflexivity.
  - simpl. lia.
  - lia.
Defined.

(** A row whose mask entry is false still holds what [np.empty] left
    there: the loop writes valid rows only. *)
Theorem invalid_rows_untouched mem d id_list scene mask r :
  det_wf d →
  sort_corners_by_id mem (det_corners d) (det_ids d) id_list = Ok (scene, mask) →
  mask !! r = Some false →
  scene !! r = Some (mem r).
Proof.
  intros Hwf Hsort Hr.
  rewrite sort_corners_by_id_fold in Hsort by done. injection Hsort as Hsort.
  destruct (arrays0_length mem id_list) as [Hl1 Hl2].
  destruct (fold_length id_list (observations d) (arrays0 mem id_list)) as [Hf1 Hf2].
  assert (scene = (foldl (visit_pure id_list) (arrays0 mem id_list) (observations d)).1)
    as -> by (by rewrite Hsort).
  assert (mask = (foldl (visit_pure id_list) (arrays0 mem id_list) (observations d)).2)
    as -> by (by rewrite Hsort).
  clear Hsort.
  assert (Hlt : r < 4 * length id_list).
  { apply lookup_lt_Some in Hr. lia. }
  assert (∃ k j, r = 4 * k + j ∧ j < 4) as (k & j & -> & Hj).
  { exists (r `div` 4), (r `mod` 4). split; [apply Nat.div_mod_eq|].
    apply Nat.mod_upper_bound. lia. }
  rewrite fold_mask in Hr by lia.
  rewrite fold_scene by lia.
  destruct (last_obs id_list k (observations d)); [done|].
  unfold arrays0, np_empty; simpl.
  rewrite list_lookup_fmap, lookup_seq_lt by lia. done.
Qed.

Lemma invalid_rows_untouched_witness :
  ∃ scene, ∃ mask,
    sort_corners_by_id mem_ones (det_corners sample_detection)
      (det_ids sample_detection) sample_layout = Ok (scene, mask) ∧
    scene !! 2 = Some (mem_ones 2).
Proof.
  eexists _, _. split; [reflexivity|].
  eapply (invalid_rows_untouched mem_ones sample_detection sample_layout _ _ 2).
  - reflexivity.
  - reflexivity.
  - reflexivity.
Defined.

End MatcherMore.


(** ** More on the detectors *)

Module DetectMore.
Import Matcher Geometry Detect Layout Safety Samples MoreSamples MatcherFacts DetectFacts.

Lemma parse_aruco_codes_length codes :
  length (parse_aruco_codes codes).1 = 4 * length codes.
Proof.
  unfold parse_aruco_codes; simpl. induction codes as [|c codes IH]; [done|].
  cbn [mbind list_bind]. rewrite length_app, IH.
  destruct (ac_position c) as [[[? ?] ?] ?]. simpl. lia.
Qed.



Lemma detector_init_ok pd K : detector_ok (detector_init pd K).
Proof.
  unfold detector_ok, detector_init.
  pose proof (parse_aruco_codes_length (arucoCodes pd)) as Hlen.
  destruct (parse_aruco_codes (arucoCodes pd)) as [o ids] eqn:E; simpl in *.
  assert (ids = ac_id <$> arucoCodes pd) as ->.
  { unfold parse_aruco_codes in E. by injection E. }
  by rewrite length_fmap.
Qed.

Lemma mask_rows_ok {A} (rows : list A) mask :
  length rows = length mask →
  ∃ sel, mask_rows rows mask = Ok sel ∧ length sel = count_valid mask.
Proof.
  intros Hlen. unfold mask_rows. case_decide; [|done]. eexists. split; [done|].
  rewrite length_fmap. unfold count_valid. clear H.
  revert rows Hlen. induction mask as [|b mask IH]; intros rows Hlen.
  - by destruct rows.
  - destruct rows as [|x rows]; [done|]. cbn [zip_with].
    rewrite !filter_cons. simpl. specialize (IH rows ltac:(by simplify_eq/=)).
    destruct b; simpl; by rewrite IH.
Qed.

Lemma any_true_count (m : list bool) : any m = true → 0 < count_valid m.
Proof.
  unfold any, count_valid. induction m as [|b m IH]; [done|]. cbn [existsb].
  destruct b.
  - intros _. rewrite filter_cons_True by done. simpl. lia.
  - intros H. rewrite filter_cons_False by done. by apply IH.
Qed.

Lemma any_replicate_false n : any (replicate n false) = false.
Proof. unfold any. by induction n. Qed.

(** For a detector whose model points run in parallel with its ids and
    a well-formed detection, [ModelDetector.detect] either gives up
    because no seen id belongs to the layout, or calls the solver with as
    many model points as scene points, a positive multiple of four;
    nothing but the solver can raise. *)
Theorem ModelDetector_detect_solver_input solvePnP self mem found :
  det_wf found →
  detector_ok self →
  (ModelDetector_detect solvePnP self mem found = Ok (false, None, None) ∧
   ∀ id, id ∈ det_seen found → id ∉ list_of_ids self) ∨
  (∃ o s n,
     0 < n ∧ length o = 4 * n ∧ length s = 4 * n ∧
     ModelDetector_detect solvePnP self mem found =
       ('(retval, rvec, tvec) ← solvePnP o s (intrinsic_matrix self);
        Ok (retval, Some rvec, Some tvec))).
Proof.
  intros Hwf Hobj. unfold detector_ok in Hobj.
  pose proof (few_valid_none mem found (list_of_ids self) Hwf) as Hfew.
  unfold ModelDetector_detect. rewrite sort_corners_by_id_fold by done.
  destruct (arrays0_length mem (list_of_ids self)) as [Hl1 Hl2].
  destruct (fold_length (list_of_ids self) (observations found)
              (arrays0 mem (list_of_ids self))) as [Hf1 Hf2].
  pose proof (count_valid_blocks
    (λ k, bool_decide (is_Some (last_obs (list_of_ids self) k (observations found))))
    (length (list_of_ids self))
    (foldl (visit_pure (list_of_ids self)) (arrays0 mem (list_of_ids self))
       (observations found)).2) as Hcount.
  destruct (foldl _ _ _) as [scene mask] eqn:E. simpl in *.
  cbn [mbind py_bind].
  destruct (any mask) eqn:Hany.
  - right.
    assert (Hids : is_none (det_ids found) = false).
    { destruct (det_ids found) eqn:Ed; [done|]. exfalso.
      unfold det_wf in Hwf. rewrite Ed in Hwf.
      unfold observations in E. rewrite Hwf, zip_with_nil_r in E.
      cbn [foldl] in E. unfold arrays0 in E. injection E as _ <-.
      unfold np_zeros_bool in Hany. by rewrite any_replicate_false in Hany. }
    rewrite Hids. cbn [orb negb].
    destruct (mask_rows_ok (obj self) mask ltac:(lia)) as (o & -> & Ho).
    destruct (mask_rows_ok scene mask ltac:(lia)) as (sc & -> & Hs).
    cbn [mbind py_bind].
    exists o, sc, (length (filter
      (λ k, bool_decide (is_Some (last_obs (list_of_ids self) k (observations found))) = true)
      (seq 0 (length (list_of_ids self))))).
    rewrite Ho, Hs.
    assert (Hc : count_valid mask = 4 * length (filter
      (λ k, bool_decide (is_Some (last_obs (list_of_ids self) k (observations found))) = true)
      (seq 0 (length (list_of_ids self))))).
    { apply Hcount; [lia|]. intros k j Hk Hj.
      replace mask with (foldl (visit_pure (list_of_ids self))
        (arrays0 mem (list_of_ids self)) (observations found)).2 by (by rewrite E).
      by apply fold_mask_flag. }
    apply any_true_count in Hany. split_and!; [lia|lia|lia|done].
  - left. rewrite orb_true_r. split; [done|].
    apply Hfew. rewrite (any_false_count mask Hany). lia.
Qed.

Lemma ModelDetector_detect_solver_input_witness :
  (ModelDetector_detect probe_solvePnP stylus_detector mem_zeros stylus_found
     = Ok (false, None, None) ∧
   ∀ id, id ∈ det_seen stylus_found → id ∉ list_of_ids stylus_detector) ∨
  (∃ o s n,
     0 < n ∧ length o = 4 * n ∧ length s = 4 * n ∧
     ModelDetector_detect probe_solvePnP stylus_detector mem_zeros stylus_found =
       ('(retval, rvec, tvec) ← probe_solvePnP o s (intrinsic_matrix stylus_detector);
        Ok (retval, Some rvec, Some tvec))).
Proof.
  apply (ModelDetector_detect_solver_input probe_solvePnP stylus_detector mem_zeros
           stylus_found).
  - reflexivity.
  - reflexivity.
Defined.

End DetectMore.


(** ** More on reverse projection *)

Module GeometryMore.
Import Geometry Rigid GeometryFacts.
Local Open Scope R_scope.

(** The entries of a rotation matrix, with the two relations that tie
    them: a unit axis and [sin^2 + cos^2 = 1]. *)
Lemma Rodrigues_cases rvec :
  Rodrigues rvec = I3 ∨
  ∃ c s rx ry rz,
    s * s + c * c = 1 ∧ rx * rx + ry * ry + rz * rz = 1 ∧
    Rodrigues rvec =
      Mat3 (c + (1 - c) * rx * rx) ((1 - c) * rx * ry - s * rz) ((1 - c) * rx * rz + s * ry)
           ((1 - c) * rx * ry + s * rz) (c + (1 - c) * ry * ry) ((1 - c) * ry * rz - s * rx)
           ((1 - c) * rx * rz - s * ry) ((1 - c) * ry * rz + s * rx) (c + (1 - c) * rz * rz).
Proof.
  destruct rvec as [[x y] z]. unfold Rodrigues.
  set (t := sqrt (x * x + y * y + z * z)).
  destruct (Req_dec_T t 0) as [|Ht]; [by left|right].
  assert (Hsq : t * t = x * x + y * y + z * z).
  { apply sqrt_sqrt. nra. }
  exists (cos t), (sin t), (x / t), (y / t), (z / t). split_and!.
  - pose proof (sin2_cos2 t) as Hsc. unfold Rsqr in Hsc. lra.
  - field_simplify_eq; [|done]. lra.
  - done.
Qed.

(** The inverse [np.linalg.inv] computes for a rotation matrix is its
    transpose. *)
Lemma linalg_inv_Rodrigues_transpose rvec :
  linalg_inv (Rodrigues rvec) = Ok (transpose (Rodrigues rvec)).
Proof.
  unfold linalg_inv. rewrite det3_Rodrigues.
  destruct (Req_dec_T 1 0); [lra|].
  destruct (Rodrigues_cases rvec) as [->|(c & s & rx & ry & rz & Hsc & Hn & ->)].
  - unfold transpose, I3; simpl. do 2 f_equal; field.
  - unfold transpose; simpl. f_equal. f_equal; unfold Rdiv; rewrite Rinv_1, Rmult_1_r; nsatz.
Qed.

(** Round trip: a point of the map carried into camera coordinates by
    the map pose is carried back to itself by [reverse_project]. *)
Theorem reverse_project_to_camera (p rvec tvec : vec3) :
  reverse_project (to_camera p rvec tvec) rvec tvec = Ok p.
Proof.
  destruct (linalg_inv_Rodrigues rvec) as [R_inv Hinv].
  unfold reverse_project, to_camera. rewrite Hinv. cbn [mbind py_bind]. f_equal.
  assert (vsub (vadd (mat_vec (Rodrigues rvec) p) tvec) tvec = mat_vec (Rodrigues rvec) p)
    as ->.
  { destruct (mat_vec (Rodrigues rvec) p) as [[a b] c], tvec as [[x y] z]; simpl.
    f_equal; [f_equal|]; ring. }
  exact (proj2 (linalg_inv_spec _ _ p Hinv)).
Qed.

(** [reverse_project] is a rigid motion: its result is the transposed
    rotation applied to [point - tvec], and it is as far from the map
    origin as the pointer is from the map in camera coordinates. *)
Theorem reverse_project_isometry (point rvec tvec : vec3) :
  ∃ q, reverse_project point rvec tvec = Ok q ∧
       q = mat_vec (transpose (Rodrigues rvec)) (vsub point tvec) ∧
       norm2 q = norm2 (vsub point tvec).
Proof.
  eexists. unfold reverse_project. rewrite linalg_inv_Rodrigues_transpose.
  cbn [mbind py_bind]. split_and!; [done|done|].
  destruct (vsub point tvec) as [[x y] z].
  destruct (Rodrigues_cases rvec) as [->|(c & s & rx & ry & rz & Hsc & Hn & ->)].
  - unfold transpose, I3, norm2; simpl. ring.
  - unfold transpose, norm2; simpl. nsatz.
Qed.

End GeometryMore.


(** ** More on the zone lookup *)

Module ZoneMore.
Import Zone Registry Samples MoreSamples ZoneFacts.
Local Open Scope Z_scope.



(** A colour list matches an array exactly when it is the array's
    entries in reverse order; an array of a single entry never matches,
    because [np.squeeze] turns it into a bare number. *)
Lemma match_color_iff (rgb px : list Z) :
  match_color rgb (Vector px) = true ↔ length px ≠ 1%nat ∧ rgb = reverse px.
Proof.
  unfold match_color.
  destruct px as [|v [|w px]].
  - simpl. case_bool_decide as H; split; try done.
    + intros _. split; [done|]. by apply (inj reverse).
    + intros [_ ->]. done.
  - simpl. split; [done|]. by intros [? _].
  - cbn [squeeze array_equal]. case_bool_decide as H; split; try done.
    + intros _. split; [done|]. by rewrite <- H, reverse_involutive.
    + intros [_ ->]. destruct H. by rewrite reverse_involutive.
Qed.

(** A hotspot colour, given as red, green, blue, matches a pixel of the
    reference image, stored as blue, green, red, exactly when the three
    channels are equal one by one; nothing but a list of three entries
    matches a pixel. *)
Theorem match_color_pixel (rgb_color_list : list Z) (b g r : Z) :
  match_color rgb_color_list (Vector [b; g; r]) = true ↔ rgb_color_list = [r; g; b].
Proof.
  rewrite match_color_iff. split.
  - intros [_ ->]. reflexivity.
  - intros ->. split; [simpl; lia|reflexivity].
Qed.

Lemma idx_from_spec (i : Z) (l : list hotspot) (c : ndarray) :
  (idx_from i l c = -1 ∧ ∀ h, h ∈ l → match_color (color h) c = false) ∨
  (∃ (n : nat) h,
     idx_from i l c = i + Z.of_nat n ∧ l !! n = Some h ∧
     match_color (color h) c = true ∧
     ∀ (n' : nat) h', (n' < n)%nat → l !! n' = Some h' →
                      match_color (color h') c = false).
Proof.
  revert i. induction l as [|d l IH]; intros i; cbn [idx_from].
  - left. split; [done|]. intros h Hh. by apply elem_of_nil in Hh.
  - destruct (match_color (color d) c) eqn:E.
    + right. exists 0%nat, d. split_and!; [lia|done|done|]. intros; lia.
    + destruct (IH (i + 1)) as [[H1 H2]|(n & h & H1 & H2 & H3 & H4)].
      * left. split; [done|]. intros h [->|Hh]%elem_of_cons; [done|by apply H2].
      * right. exists (S n), h. split_and!; [lia|done|done|].
        intros [|n'] h' Hn' Hl; simpl in Hl; [by simplify_eq|].
        apply (H4 n'); [lia|done].
Qed.

(** [get_dict_idx_from_color] returns the position of the first hotspot
    whose colour matches, and -1 exactly when no hotspot matches; the
    result is always -1 or a valid position in the list. *)
Theorem get_dict_idx_from_color_first (l : list hotspot) (c : ndarray) :
  (get_dict_idx_from_color l c = -1 ∧
   ∀ h, h ∈ l → match_color (color h) c = false) ∨
  (∃ (n : nat) h,
     get_dict_idx_from_color l c = Z.of_nat n ∧ l !! n = Some h ∧
     match_color (color h) c = true ∧
     ∀ (n' : nat) h', (n' < n)%nat → l !! n' = Some h' →
                      match_color (color h') c = false).
Proof.
  unfold get_dict_idx_from_color.
  destruct (idx_from_spec 0 l c) as [?|(n & h & H1 & ?)]; [by left|].
  right. exists n, h. by rewrite H1, Z.add_0_l.
Qed.

Lemma get_dict_from_color_first (l : list hotspot) (c : list Z) :
  (get_dict_from_color l c = None ∧ ∀ h, h ∈ l → color h ≠ c) ∨
  (∃ (n : nat) h,
     get_dict_from_color l c = Some h ∧ l !! n = Some h ∧ color h = c ∧
     ∀ (n' : nat) h', (n' < n)%nat → l !! n' = Some h' → color h' ≠ c).
Proof.
  induction l as [|d l IH]; cbn [get_dict_from_color].
  - left. split; [done|]. intros h Hh. by apply elem_of_nil in Hh.
  - case_decide as E.
    + right. exists 0%nat, d. split_and!; [done|done|done|]. intros; lia.
    + destruct IH as [[H1 H2]|(n & h & H1 & H2 & H3 & H4)].
      * left. split; [done|]. intros h [->|Hh]%elem_of_cons; [done|by apply H2].
      * right. exists (S n), h. split_and!; [done|done|done|].
        intros [|n'] h' Hn' Hl; simpl in Hl; [by simplify_eq|].
        apply (H4 n'); [lia|done].
Qed.

Lemma idx_from_range (i : Z) (l : list hotspot) (c : ndarray) :
  idx_from i l c = -1 ∨ i ≤ idx_from i l c < i + Z.of_nat (length l).
Proof.
  destruct (idx_from_spec i l c) as [[? _]|(n & h & -> & Hl & _)]; [by left|right].
  apply lookup_lt_Some in Hl. lia.
Qed.

Lemma color_lookups_agree_from (i : Z) (l : list hotspot) (px : list Z) :
  length px ≠ 1%nat → 0 ≤ i →
  get_dict_from_color l (reverse px) =
    if decide (idx_from i l (Vector px) < 0) then None
    else l !! Z.to_nat (idx_from i l (Vector px) - i).
Proof.
  intros Hpx. revert i. induction l as [|d l IH]; intros i Hi.
  - cbn [get_dict_from_color idx_from]. by rewrite decide_True by lia.
  - cbn [get_dict_from_color idx_from].
    destruct (match_color (color d) (Vector px)) eqn:E.
    + apply match_color_iff in E as [_ E]. rewrite decide_True by done.
      rewrite decide_False by lia. by rewrite Z.sub_diag.
    + rewrite decide_False.
      2:{ intros Hc. assert (match_color (color d) (Vector px) = true) as Ht.
          { apply match_color_iff. done. }
          congruence. }
      rewrite (IH (i + 1)) by lia.
      destruct (idx_from_range (i + 1) l (Vector px)) as [->|Hr].
      * done.
      * rewrite !decide_False by lia.
        replace (Z.to_nat (idx_from (i + 1) l (Vector px) - i))
          with (S (Z.to_nat (idx_from (i + 1) l (Vector px) - (i + 1)))) by lia.
        done.
Qed.

(** The two colour lookups find the same hotspot: for a pixel of several
    channels, [get_dict_from_color] on the reversed channels returns the
    hotspot at the index [get_dict_idx_from_color] returns for the
    pixel, and [None] when that index is -1. *)
Theorem color_lookups_agree (l : list hotspot) (px : list Z) :
  length px ≠ 1%nat →
  get_dict_from_color l (reverse px) =
    if decide (get_dict_idx_from_color l (Vector px) < 0) then None
    else l !! Z.to_nat (get_dict_idx_from_color l (Vector px)).
Proof.
  intros Hpx. unfold get_dict_idx_from_color.
  rewrite (color_lookups_agree_from 0) by done. by rewrite Z.sub_0_r.
Qed.

Lemma color_lookups_agree_witness :
  get_dict_from_color (hotspots two_zone_model) (reverse [0; 255; 0]) =
    if decide (get_dict_idx_from_color (hotspots two_zone_model) (Vector [0; 255; 0]) < 0)
    then None
    else hotspots two_zone_model
           !! Z.to_nat (get_dict_idx_from_color (hotspots two_zone_model) (Vector [0; 255; 0])).
Proof.
  apply (color_lookups_agree (hotspots two_zone_model) [0; 255; 0]).
  simpl. lia.
Defined.





End ZoneMore.


(** ** More on the interaction policy *)

Module PolicyMore.
Import Zone Policy Safety Samples MoreSamples ZoneFacts PolicyFacts ZoneMore.
Local Open Scope Z_scope.

Ltac mod10 :=
  unfold zone_filter_size in *;
  repeat match goal with
  | |- context [(?x `mod` 10)%nat] =>
      pose proof (Nat.div_mod_eq x 10);
      pose proof (Nat.mod_upper_bound x 10 ltac:(lia));
      generalize dependent (x `div` 10)%nat;
      generalize dependent (x `mod` 10)%nat; intros
  | H : context [(?x `mod` 10)%nat] |- _ =>
      pose proof (Nat.div_mod_eq x 10);
      pose proof (Nat.mod_upper_bound x 10 ltac:(lia));
      generalize dependent (x `div` 10)%nat;
      generalize dependent (x `mod` 10)%nat; intros
  end; lia.

Lemma store_ok self raw : policy_ok self → policy_ok (store self raw).
Proof.
  intros [Hlen Hcnt]. split; unfold store; cbn [zone_filter zone_filter_cnt].
  - by rewrite length_insert.
  - apply Nat.mod_upper_bound. done.
Qed.

(** After any number of stores the cursor has advanced by that number
    modulo ten, each of the last ten values sits in the cell the cursor
    pointed to when it was stored, and a cell no store went to is as it
    was. *)
Lemma store_fold_inv self raws :
  policy_ok self →
  policy_ok (foldl store self raws) ∧
  zone_filter_cnt (foldl store self raws) =
    ((zone_filter_cnt self + length raws) `mod` 10)%nat ∧
  (∀ k r, raws !! k = Some r → (length raws - k ≤ 10)%nat →
     zone_filter (foldl store self raws) !! ((zone_filter_cnt self + k) `mod` 10)%nat
       = Some r) ∧
  (∀ j, (∀ k, (k < length raws)%nat → ((zone_filter_cnt self + k) `mod` 10)%nat ≠ j) →
     zone_filter (foldl store self raws) !! j = zone_filter self !! j).
Proof.
  intros Hok. induction raws as [|r raws IH] using rev_ind.
  - cbn [foldl length]. split_and!; [done| |done|done].
    destruct Hok as [Hlen Hcnt].
    rewrite Nat.add_0_r. symmetry. apply Nat.mod_small. done.
  - destruct IH as (Hok' & Hc & Hcells & Hrest).
    rewrite foldl_app. cbn [foldl]. rewrite length_app. cbn [length].
    set (s := foldl store self raws) in *.
    destruct Hok' as [Hlen' Hcnt'].
    split_and!.
    + by apply store_ok.
    + unfold store; cbn [zone_filter_cnt]. rewrite Hc. clear -Hok. mod10.
    + intros k v Hk Hwin. unfold store; cbn [zone_filter].
      destruct (decide (k < length raws)%nat) as [Hlt|Hge].
      * rewrite lookup_app_l in Hk by done.
        rewrite list_lookup_insert_ne; [apply Hcells; [done|lia]|].
        rewrite Hc. clear -Hlt Hwin. mod10.
      * assert (k = length raws) as ->.
        { apply lookup_lt_Some in Hk. rewrite length_app in Hk. simpl in Hk. lia. }
        rewrite list_lookup_middle in Hk by done. injection Hk as ->.
        rewrite <- Hc. apply list_lookup_insert_eq.
        rewrite Hlen'. done.
    + intros j Hj. unfold store; cbn [zone_filter].
      rewrite list_lookup_insert_ne.
      * apply Hrest. intros k Hk. apply Hj. lia.
      * rewrite Hc. apply Hj. lia.
Qed.

(** Once ten values have been stored the buffer is the last ten of
    them, rotated so that the oldest sits at the cursor. *)
Lemma ring_rotation self raws :
  policy_ok self → (10 ≤ length raws)%nat →
  let w := drop (length raws - 10) raws in
  let c := ((zone_filter_cnt self + (length raws - 10)) `mod` 10)%nat in
  zone_filter (foldl store self raws) = drop (10 - c) w ++ take (10 - c) w.
Proof.
  intros Hok Hn w c.
  destruct (store_fold_inv self raws Hok) as ([Hlen _] & _ & Hcells & _).
  assert (Hw : length w = 10%nat) by (unfold w; rewrite length_drop; lia).
  assert (Hc : (c < 10)%nat) by (unfold c; apply Nat.mod_upper_bound; lia).
  apply list_eq. intros j.
  destruct (decide (j < 10)%nat) as [Hj|Hj].
  2:{ rewrite !lookup_ge_None_2; [done| |].
      - rewrite length_app, length_drop, length_take. lia.
      - rewrite Hlen. unfold zone_filter_size. lia. }
  set (i := if decide (j < c)%nat then (10 - c + j)%nat else (j - c)%nat).
  assert (Hi : (i < 10)%nat) by (unfold i; case_decide; lia).
  destruct (lookup_lt_is_Some_2 w i ltac:(lia)) as [r Hr].
  assert (Hrhs : (drop (10 - c) w ++ take (10 - c) w) !! j = Some r).
  { unfold i in Hr. case_decide.
    - rewrite lookup_app_l by (rewrite length_drop; lia).
      by rewrite lookup_drop.
    - rewrite lookup_app_r by (rewrite length_drop; lia).
      rewrite length_drop, Hw.
      replace (j - (10 - (10 - c)))%nat with (j - c)%nat by lia.
      rewrite lookup_take_lt by lia. done. }
  rewrite Hrhs. unfold w in Hr. rewrite lookup_drop in Hr.
  specialize (Hcells _ _ Hr ltac:(lia)).
  replace ((zone_filter_cnt self + (length raws - 10 + i)) `mod` 10)%nat with j in Hcells;
    [done|].
  unfold i, c in *. clear -Hj Hn. case_decide; mod10.
Qed.

Lemma count_of_perm a b v : a ≡ₚ b → count_of a v = count_of b v.
Proof. intros Hp. unfold count_of. by rewrite Hp. Qed.

Lemma count_of_two a v w :
  v ≠ w → (count_of a v + count_of a w ≤ length a)%nat.
Proof.
  intros Hne. unfold count_of. induction a as [|x a IH]; [done|].
  rewrite !filter_cons. repeat case_decide; simpl; subst; try lia; done.
Qed.

(** A value that fills more than half of the array is its mode. *)
Lemma stats_mode_majority (a : list Z) (z : Z) :
  (length a < 2 * count_of a z)%nat → stats_mode a = z.
Proof.
  intros Hmaj.
  assert (Hne : a ≠ []) by (intros ->; simpl in Hmaj; lia).
  destruct (stats_mode_smallest a Hne) as (_ & Hmax & _).
  destruct (decide (stats_mode a = z)) as [|Hdiff]; [done|].
  pose proof (count_of_two a _ _ Hdiff). specialize (Hmax z). lia.
Qed.

Lemma ring_perm self raws :
  policy_ok self → (10 ≤ length raws)%nat →
  zone_filter (foldl store self raws) ≡ₚ drop (length raws - 10) raws.
Proof.
  intros Hok Hn. rewrite (ring_rotation self raws Hok Hn).
  rewrite (comm (++)). by rewrite take_drop.
Qed.

(** From the tenth classification on, the ring buffer holds exactly the
    raw zones of the last ten positions, and the cursor has advanced by
    the number of classifications modulo ten. *)
Theorem ring_buffer_last_ten m img self (positions : list pt3) :
  policy_ok self →
  (10 ≤ length positions)%nat →
  ∃ zones self',
    pushes m img self positions = Ok (zones, self') ∧
    zone_filter_cnt self' =
      ((zone_filter_cnt self + length positions) `mod` 10)%nat ∧
    zone_filter self' ≡ₚ raw_zone m img <$> drop (length positions - 10) positions.
Proof.
  intros Hok Hn. destruct (pushes_state m img positions self Hok) as [zones Hrun].
  eexists _, _. split; [exact Hrun|].
  destruct (store_fold_inv self (raw_zone m img <$> positions) Hok) as (_ & Hc & _).
  rewrite length_fmap in Hc. split; [done|].
  rewrite ring_perm by (rewrite ?length_fmap; done).
  by rewrite length_fmap, fmap_drop.
Qed.

Lemma ring_buffer_last_ten_witness :
  ∃ zones self',
    pushes two_zone_model two_zone_image policy_init
      (replicate 5 on_green ++ replicate 6 on_red) = Ok (zones, self') ∧
    zone_filter_cnt self' =
      ((zone_filter_cnt policy_init
        + length (replicate 5 on_green ++ replicate 6 on_red)) `mod` 10)%nat ∧
    zone_filter self' ≡ₚ
      raw_zone two_zone_model two_zone_image
        <$> drop (length (replicate 5 on_green ++ replicate 6 on_red) - 10)
              (replicate 5 on_green ++ replicate 6 on_red).
Proof.
  apply (ring_buffer_last_ten two_zone_model two_zone_image policy_init
           (replicate 5 on_green ++ replicate 6 on_red)).
  - apply policy_init_ok.
  - simpl. lia.
Defined.

(** Debouncing: with the pointer on the map, a zone that accounts for
    more than five of the last ten raw zones, the current one included,
    is the zone returned. *)
Theorem push_gesture_majority m img self (positions : list pt3) (p : pt3) (z : Z) :
  policy_ok self →
  (9 ≤ length positions)%nat →
  (Rabs (p.2) < 2)%R →
  (5 < count_of (raw_zone m img <$> (drop (length positions - 9) positions ++ [p])) z)%nat →
  ∃ zones self1 self2,
    pushes m img self positions = Ok (zones, self1) ∧
    push_gesture m img self1 p = Ok (z, self2).
Proof.
  intros Hok Hn Hz Hmaj.
  destruct (pushes_state m img positions self Hok) as [zones Hrun].
  set (raws := raw_zone m img <$> positions) in *.
  set (self1 := foldl store self raws) in *.
  assert (Hok1 : policy_ok self1).
  { by destruct (store_fold_inv self raws Hok) as (? & _). }
  exists zones, self1, (pushed m img self1 p). split; [done|].
  rewrite push_gesture_eval by (destruct Hok1; lia).
  destruct (Rlt_dec _ _); [|lra]. do 2 f_equal.
  apply stats_mode_majority.
  assert (Hfold : pushed m img self1 p = foldl store self (raws ++ [raw_zone m img p])).
  { unfold pushed, self1. by rewrite foldl_app. }
  assert (Hlen : length raws = length positions) by (unfold raws; by rewrite length_fmap).
  assert (Hperm : zone_filter (pushed m img self1 p) ≡ₚ
            raw_zone m img <$> (drop (length positions - 9) positions ++ [p])).
  { rewrite Hfold, ring_perm by (rewrite ?length_app; simpl; lia || done).
    rewrite length_app. cbn [length].
    rewrite drop_app_le by lia.
    replace (length raws + 1 - 10)%nat with (length positions - 9)%nat by lia.
    unfold raws. by rewrite fmap_app, fmap_drop. }
  rewrite (count_of_perm _ _ z Hperm).
  rewrite Hperm, length_fmap, length_app, length_drop. simpl. lia.
Qed.

Lemma push_gesture_majority_witness :
  ∃ zones self1 self2,
    pushes two_zone_model two_zone_image policy_init
      (replicate 4 on_green ++ replicate 5 on_red) = Ok (zones, self1) ∧
    push_gesture two_zone_model two_zone_image self1 on_red = Ok (0, self2).
Proof.
  apply (push_gesture_majority two_zone_model two_zone_image policy_init
           (replicate 4 on_green ++ replicate 5 on_red) on_red 0).
  - apply policy_init_ok.
  - simpl. lia.
  - apply touching_origin_plane.
  - cbn [replicate app length drop Nat.sub fmap list_fmap].
    rewrite !raw_zone_on_red, !raw_zone_on_green. vm_compute. lia.
Defined.

Lemma raw_zone_in_range m img (p : pt3) : zone_in_range m (raw_zone m img p).
Proof.
  unfold zone_in_range, raw_zone, get_dict_idx_from_color.
  destruct (idx_from_range 0 (hotspots m) (get_zone p img (pixels_per_cm m))) as [->|?]; lia.
Qed.

Lemma pushed_valid m img self (p : pt3) :
  policy_valid m self → policy_valid m (pushed m img self p).
Proof.
  intros [Hok Hall]. split; [by apply pushed_ok|].
  unfold pushed, store; cbn [zone_filter].
  apply Forall_insert; [done|apply raw_zone_in_range].
Qed.

Lemma mode_in_range m self :
  policy_valid m self → zone_in_range m (stats_mode (zone_filter self)).
Proof.
  intros [[Hlen _] Hall].
  assert (Hne : zone_filter self ≠ []).
  { intros Hnil. rewrite Hnil in Hlen. done. }
  destruct (stats_mode_smallest _ Hne) as (Hin & _).
  rewrite Forall_forall in Hall. by apply Hall.
Qed.

Lemma policy_init_valid m : policy_valid m policy_init.
Proof.
  split; [apply policy_init_ok|]. unfold policy_init; cbn [zone_filter].
  apply Forall_replicate. unfold zone_in_range. lia.
Qed.

(** The zone [push_gesture] returns is -1 or the index of a hotspot,
    provided the same holds of the values in the ring buffer, and this
    condition on the buffer is kept by the call. *)
Theorem push_gesture_in_range m img self (p : pt3) :
  policy_valid m self →
  ∃ zone self',
    push_gesture m img self p = Ok (zone, self') ∧
    zone_in_range m zone ∧
    policy_valid m self'.
Proof.
  intros Hval. pose proof (pushed_valid m img self p Hval) as Hval'.
  destruct Hval as [[Hlen Hcnt] _].
  eexists _, (pushed m img self p). rewrite push_gesture_eval by lia.
  split; [done|]. split; [|done].
  destruct (Rlt_dec _ _).
  - by apply mode_in_range.
  - unfold zone_in_range. lia.
Qed.

Lemma push_gesture_in_range_witness :
  ∃ zone self',
    push_gesture two_zone_model two_zone_image policy_init on_green = Ok (zone, self') ∧
    zone_in_range two_zone_model zone ∧
    policy_valid two_zone_model self'.
Proof.
  apply (push_gesture_in_range two_zone_model two_zone_image policy_init on_green).
  apply policy_init_valid.
Defined.

End PolicyMore.

(** ** More on the dispatcher *)

Module PlayerMore.
Import Player Safety Samples MoreSamples PlayerFacts.
Local Open Scope Z_scope.

Lemma py_getitem_nonneg {A} (l : list A) (i : Z) :
  0 ≤ i < Z.of_nat (length l) →
  ∃ x, py_getitem l i = Ok x ∧ l !! Z.to_nat i = Some x.
Proof.
  intros Hi. unfold py_getitem.
  destruct (decide (i < 0)); [lia|]. rewrite decide_True by lia.
  assert (Hlt : (Z.to_nat i < length l)%nat) by lia.
  destruct (lookup_lt_is_Some_2 l (Z.to_nat i) Hlt) as [x Hx].
  rewrite Hx. by exists x.
Qed.

Lemma filter_all {A} (P : A → Prop) `{∀ x, Decision (P x)} (l : list A) :
  filter P l = l ↔ Forall P l.
Proof.
  induction l as [|x l IH].
  - split; [constructor|done].
  - rewrite filter_cons. case_decide as Hx.
    + split.
      * intros [= Hl]. constructor; [done|by apply IH].
      * intros Hall. inversion Hall; subst. f_equal. by apply IH.
    + split.
      * intros Hl. pose proof (length_filter P l) as Hle.
        rewrite Hl in Hle. simpl in Hle. lia.
      * intros Hall. inversion Hall; subst. done.
Qed.

Lemma filter_length_all {A} (P : A → Prop) `{∀ x, Decision (P x)} (l : list A) :
  length (filter P l) = length l ↔ filter P l = l.
Proof.
  split; [|by intros ->].
  induction l as [|x l IH]; [done|].
  rewrite filter_cons. case_decide; simpl.
  - intros [= Hl]. f_equal. by apply IH.
  - intros Hl. pose proof (length_filter P l). lia.
Qed.

Lemma player_init_length_iff (m : model) (path_exists : string → bool) (now : R) :
  length (sound_files (player_init m path_exists now)) = length (hotspots m) ↔
  ∀ h, h ∈ hotspots m → path_exists (audioDescription h) = true.
Proof.
  unfold player_init; cbn [sound_files]. rewrite length_fmap.
  rewrite <- Forall_forall, <- filter_all. apply filter_length_all.
Qed.

(** The list of sounds built by [__init__] runs in parallel with the
    hotspots, sound [i] being the audio file of hotspot [i], exactly
    when the audio file of every hotspot exists. *)
Theorem player_init_aligned_iff (m : model) (path_exists : string → bool) (now : R) :
  player_aligned (player_init m path_exists now) ↔
  ∀ h, h ∈ hotspots m → path_exists (audioDescription h) = true.
Proof.
  split.
  - intros Hal. apply (player_init_length_iff m path_exists now).
    unfold player_aligned in Hal. rewrite Hal. cbn [player_init player_model].
    by rewrite length_fmap.
  - intros Hall. unfold player_aligned, player_init; cbn [sound_files player_model].
    f_equal. apply filter_all. by apply Forall_forall.
Qed.

Lemma aligned_sound self zone h :
  player_aligned self →
  0 ≤ zone →
  hotspots (player_model self) !! Z.to_nat zone = Some h →
  py_getitem (sound_files self) zone = Ok (audioDescription h).
Proof.
  intros Hal Hz Hh.
  assert (Hs : sound_files self !! Z.to_nat zone = Some (audioDescription h)).
  { rewrite Hal, list_lookup_fmap, Hh. done. }
  destruct (py_getitem_nonneg (sound_files self) zone) as (x & -> & Hx).
  - apply lookup_lt_Some in Hs. lia.
  - congruence.
Qed.

(** With the sounds in parallel with the hotspots, a call for a valid
    zone never raises; it leaves the model and the sounds as they are,
    produces at most one event, and the cue it starts (or fails to
    start) is the audio file of that very zone. *)
Theorem convey_aligned self zone t_check t_set play_ok :
  player_aligned self →
  0 ≤ zone < Z.of_nat (length (hotspots (player_model self))) →
  ∃ self' evs h,
    convey self zone t_check t_set play_ok = Ok (self', evs) ∧
    hotspots (player_model self) !! Z.to_nat zone = Some h ∧
    player_aligned self' ∧
    player_model self' = player_model self ∧
    (evs = [] ∧ self' = self ∨
     evs = [play_event play_ok (audioDescription h)] ∧
     prev_zone_name self' = textDescription h ∧ start_time self' = t_set).
Proof.
  intros Hal Hz.
  destruct (py_getitem_nonneg (hotspots (player_model self)) zone Hz) as (h & Hh & Hl).
  rewrite (convey_eval _ _ _ _ _ h) by done.
  case_decide; [|by exists self, [], h; split_and!; try done; left].
  destruct (Rgt_dec _ _); [|by exists self, [], h; split_and!; try done; left].
  rewrite (aligned_sound self zone h) by (done || lia).
  exists (dispatched self h t_set), [play_event play_ok (audioDescription h)], h.
  split_and!; try done. by right.
Qed.

Lemma convey_aligned_witness :
  ∃ self' evs h,
    convey (player_init two_zone_model all_files 0) 1 1 1 backend_ok = Ok (self', evs) ∧
    hotspots (player_model (player_init two_zone_model all_files 0)) !! Z.to_nat 1 = Some h ∧
    player_aligned self' ∧
    player_model self' = player_model (player_init two_zone_model all_files 0) ∧
    (evs = [] ∧ self' = player_init two_zone_model all_files 0 ∨
     evs = [play_event backend_ok (audioDescription h)] ∧
     prev_zone_name self' = textDescription h ∧ start_time self' = 1%R).
Proof.
  apply (convey_aligned (player_init two_zone_model all_files 0) 1 1 1 backend_ok).
  - reflexivity.
  - simpl. lia.
Defined.

End PlayerMore.


(** ** The main loop never crashes *)

Module MainMore.
Import Matcher Geometry Detect Zone Policy Player Main Safety Samples MoreSamples.
Import MatcherFacts GeometryFacts DetectFacts PolicyFacts PlayerFacts MainFacts.
Import DetectMore PolicyMore PlayerMore.





Lemma app_valid_run_flag c s b :
  app_valid c s → app_valid c (App b (interact s) (camio_player s)).
Proof. done. Qed.




End MainMore.


(** ** Port enumeration and dictionary names *)

Module PortsFacts.
Import Ports Registry Samples MoreSamples.

Lemma tested_S VideoCapture n :
  probe VideoCapture n (tested VideoCapture n) = tested VideoCapture (S n).
Proof.
  unfold probe, tested, available_of, working_of, non_working_of.
  rewrite seq_S, !omap_app. cbn [omap list_omap plus].
  destruct (VideoCapture n) as [|[|] w h];
    cbn [available_ports working_ports non_working_ports];
    by rewrite ?app_nil_r.
Qed.

Lemma non_working_mono VideoCapture k n :
  k ≤ n →
  length (non_working_ports (tested VideoCapture k)) ≤
  length (non_working_ports (tested VideoCapture n)).
Proof.
  intros Hk. unfold tested; cbn [non_working_ports].
  replace n with (k + (n - k)) by lia.
  rewrite seq_app, omap_app, length_app. lia.
Qed.

Lemma non_working_S VideoCapture n :
  VideoCapture n = NotOpened →
  length (non_working_ports (tested VideoCapture (S n))) =
  S (length (non_working_ports (tested VideoCapture n))).
Proof.
  intros Hn. unfold tested; cbn [non_working_ports].
  rewrite seq_S, omap_app, length_app. cbn [omap list_omap plus].
  unfold non_working_of at 2. rewrite Hn. simpl. lia.
Qed.

Lemma list_ports_loop_from VideoCapture n :
  length (non_working_ports (tested VideoCapture n)) = 5 →
  VideoCapture n = NotOpened →
  ∀ fuel k, k ≤ S n →
    list_ports_loop fuel VideoCapture k (tested VideoCapture k) =
      if decide (S n - k ≤ fuel) then Some (tested VideoCapture (S n)) else None.
Proof.
  intros Hfive Hn. induction fuel as [|fuel IH]; intros k Hk.
  - destruct (decide (k = S n)) as [->|Hne].
    + cbn [list_ports_loop]. rewrite (non_working_S _ _ Hn), Hfive.
      rewrite decide_False by lia. by rewrite decide_True by lia.
    + cbn [list_ports_loop].
      pose proof (non_working_mono VideoCapture k n ltac:(lia)).
      rewrite decide_True by lia. by rewrite decide_False by lia.
  - destruct (decide (k = S n)) as [->|Hne].
    + cbn [list_ports_loop]. rewrite (non_working_S _ _ Hn), Hfive.
      rewrite decide_False by lia. by rewrite decide_True by lia.
    + cbn [list_ports_loop].
      pose proof (non_working_mono VideoCapture k n ltac:(lia)).
      rewrite decide_True by lia. rewrite tested_S, IH by lia.
      destruct (decide (S n - S k ≤ fuel)), (decide (S n - k ≤ S fuel)); done || lia.
Qed.

(** [list_ports] stops right after the sixth port that does not open:
    if port [n] is that port, the loop makes [n + 1] passes and returns
    every port up to [n], each in exactly the list its camera puts it in
    and in ascending order; with fewer passes it is still running. *)
Theorem list_ports_stops_at_sixth VideoCapture n fuel :
  length (non_working_ports (tested VideoCapture n)) = 5 →
  VideoCapture n = NotOpened →
  list_ports fuel VideoCapture =
    if decide (S n ≤ fuel) then Some (tested VideoCapture (S n)) else None.
Proof.
  intros Hfive Hn. unfold list_ports.
  change (PortLists [] [] []) with (tested VideoCapture 0).
  rewrite (list_ports_loop_from VideoCapture n Hfive Hn) by lia.
  by rewrite Nat.sub_0_r.
Qed.

Lemma list_ports_stops_at_sixth_witness :
  list_ports 8 two_cameras =
    if decide (S 7 ≤ 8) then Some (tested two_cameras (S 7)) else None.
Proof.
  apply (list_ports_stops_at_sixth two_cameras 7 8); reflexivity.
Defined.

(** On a machine where fewer than six ports ever fail to open, the loop
    of [list_ports] never ends. *)
Theorem list_ports_runs_on VideoCapture fuel :
  (∀ n, length (non_working_ports (tested VideoCapture n)) < 6) →
  list_ports fuel VideoCapture = None.
Proof.
  intros Hfew. unfold list_ports.
  change (PortLists [] [] []) with (tested VideoCapture 0).
  generalize 0 as k. induction fuel as [|fuel IH]; intros k; cbn [list_ports_loop].
  - by rewrite decide_True by apply Hfew.
  - rewrite decide_True by apply Hfew. rewrite tested_S. apply IH.
Qed.

Lemma list_ports_runs_on_witness : list_ports 100 endless_cameras = None.
Proof.
  apply (list_ports_runs_on endless_cameras 100).
  intros n. unfold tested; cbn [non_working_ports].
  induction (seq 0 n) as [|x l IH]; simpl; [lia|exact IH].
Defined.

Lemma dict_id_name (name : string) (d : aruco_dict_id) :
  get_aruco_dict_id_from_string name = Some d → name = dict_name d.
Proof.
  unfold get_aruco_dict_id_from_string.
  repeat match goal with
  | |- context [String.eqb name ?s] =>
      destruct (String.eqb_spec name s) as [->|_]; [by intros [= <-]|]
  end.
  done.
Qed.

(** [get_aruco_dict_id_from_string] knows seven names: each is mapped to
    its own dictionary, nothing else is mapped to a dictionary, and any
    other name falls through the chain of comparisons and gives [None]. *)
Theorem get_aruco_dict_id_from_string_names (name : string) (d : aruco_dict_id) :
  get_aruco_dict_id_from_string (dict_name d) = Some d ∧
  (get_aruco_dict_id_from_string name = Some d ↔ name = dict_name d) ∧
  (get_aruco_dict_id_from_string name = None ↔ ∀ d', name ≠ dict_name d').
Proof.
  assert (Hround : ∀ d', get_aruco_dict_id_from_string (dict_name d') = Some d').
  { by intros []. }
  split_and!.
  - apply Hround.
  - split; [apply dict_id_name|]. intros ->. apply Hround.
  - split.
    + intros Hnone d' ->. by rewrite Hround in Hnone.
    + intros Hno. destruct (get_aruco_dict_id_from_string name) as [d'|] eqn:E; [|done].
      apply dict_id_name in E. by destruct (Hno d').
Qed.

End PortsFacts.

(** ** A frame that shows both the map and the pointer *)

Module FrameFacts.
Import Matcher Geometry Detect Zone Policy Player Main Safety Samples MoreSamples.
Import MatcherFacts GeometryFacts DetectFacts PolicyFacts PlayerFacts MainFacts.
Import PolicyMore PlayerMore.

Lemma reverse_project_zero_rotation (p t : vec3) :
  reverse_project p zero3 t = Ok (vsub p t).
Proof.
  unfold reverse_project. rewrite Rodrigues_zero, linalg_inv_I3. cbn [mbind py_bind].
  destruct (vsub p t) as [[a b] c]. unfold I3; simpl. do 2 f_equal; [f_equal|]; ring.
Qed.

(** In a frame where the map pose is found and the pointer is at [p],
    the raw zone of [p] is always written into the ring buffer; the
    dispatcher is reached only if the pointer is within 2 cm of the map
    and the mode of the buffer is a zone, and then it is called with that
    mode.  A hovering pointer therefore still feeds the filter. *)
Theorem frame_with_pointer {frame : Type} (detectMarkers : frame → string → detection)
    (solvePnP : list pt3 → list pt2 → mat3 → py pnp_result)
    (c : config) (s : app) (w : tick frame) (rvec tvec : vec3) (p : pt3) :
  cap_isOpened w = true →
  cap_ret w = true →
  (loop_has_run s = true → waitKey w ≠ 27%Z ∧ waitKey w ≠ 113%Z) →
  ModelDetector_detect solvePnP (model_detector c) (mem_model w)
    (detectMarkers (cap_frame w) (aruco_dict (model_detector c)))
    = Ok (true, Some rvec, Some tvec) →
  PoseDetector_detect solvePnP (pose_detector c) (mem_stylus w)
    (detectMarkers (cap_frame w) (aruco_dict (pose_detector c))) rvec tvec
    = Ok (Some p) →
  policy_ok (interact s) →
  let pol := pushed (cfg_model c) (cfg_image c) (interact s) p in
  let zone := stats_mode (zone_filter pol) in
  (((Rabs (p.2) >= 2)%R ∨ (zone ≤ -1)%Z) →
     loop_body detectMarkers solvePnP c s w =
       Ok (Continue (App true pol (camio_player s)) [])) ∧
  (((Rabs (p.2) < 2)%R ∧ (zone > -1)%Z) →
     loop_body detectMarkers solvePnP c s w =
       ('(pl, evs) ← convey (camio_player s) zone (t_check w) (t_set w) (play_ok w);
        Ok (Continue (App true pol pl) evs))).
Proof.
  intros Hopen Hret Hkey Hm Hp [Hlen Hcnt] pol zone.
  assert (Hgo : loop_has_run s &&
                (bool_decide (waitKey w = 27%Z) || bool_decide (waitKey w = 113%Z)) = false).
  { destruct (loop_has_run s); [|done]. destruct (Hkey eq_refl) as [H1 H2].
    by rewrite !bool_decide_eq_false_2. }
  assert (Hbody : loop_body detectMarkers solvePnP c s w =
    ('(zone_id, pol) ← push_gesture (cfg_model c) (cfg_image c) (interact s) p;
     if decide (zone_id > -1)%Z then
       '(pl, evs) ← convey (camio_player s) zone_id (t_check w) (t_set w) (play_ok w);
       Ok (Continue (App true pol pl) evs)
     else Ok (Continue (App true pol (camio_player s)) []))).
  { unfold loop_body. rewrite Hopen, Hret, Hgo. cbn [negb].
    rewrite Hm. cbn [mbind py_bind negb]. rewrite Hp. done. }
  rewrite Hbody, push_gesture_eval by lia. cbn [mbind py_bind].
  fold pol. fold zone. split.
  - intros [Hz|Hz].
    + destruct (Rlt_dec _ _); [lra|]. by rewrite decide_False by lia.
    + destruct (Rlt_dec _ _); by rewrite decide_False by lia.
  - intros [Hz Hzone]. destruct (Rlt_dec _ _); [|lra].
    by rewrite decide_True by done.
Qed.

Lemma frame_with_pointer_witness :
  loop_body seeing_detector depth_solvePnP sample_config sample_app sample_tick =
    Ok (Continue (App true
          (pushed (cfg_model sample_config) (cfg_image sample_config)
             (interact sample_app) lifted)
          (camio_player sample_app)) []).
Proof.
  destruct (frame_with_pointer seeing_detector depth_solvePnP sample_config sample_app
              sample_tick zero3 (0, 0, 4)%R lifted) as [Hhover _].
  - reflexivity.
  - reflexivity.
  - intros Hrun. discriminate Hrun.
  - reflexivity.
  - unfold PoseDetector_detect, depth_solvePnP; simpl.
    rewrite reverse_project_zero_rotation. unfold lifted; simpl.
    change (Z.of_nat 8) with 8%Z.
    do 2 f_equal. f_equal; [f_equal|]; lra.
  - apply policy_init_ok.
  - apply Hhover. left. unfold lifted; simpl.
    rewrite Rabs_right by lra. lra.
Defined.

End FrameFacts.

(** ** The pointer detector when the whole stylus is in view *)

Module PointerFacts.
Import Matcher Geometry Detect Safety Samples MoreSamples MatcherFacts DetectFacts.

(** When the layout lists no id twice and every id of it is seen in the
    frame, every row of the scene array is written, so what
    [PoseDetector.detect] returns does not depend on what [np.empty]
    left in the array. *)
Theorem PoseDetector_detect_all_seen solvePnP self mem1 mem2 found rvec tvec :
  det_wf found →
  NoDup (list_of_ids self) →
  (∀ id, id ∈ list_of_ids self → id ∈ det_seen found) →
  PoseDetector_detect solvePnP self mem1 found rvec tvec =
  PoseDetector_detect solvePnP self mem2 found rvec tvec.
Proof.
  intros Hwf Hnd Hall. unfold PoseDetector_detect.
  rewrite !sort_corners_by_id_fold by done.
  destruct (fold_mem_independent (list_of_ids self) (observations found) mem1 mem2)
    as (Hmask & Hlen & _).
  assert (Hscene :
    (foldl (visit_pure (list_of_ids self)) (arrays0 mem1 (list_of_ids self))
       (observations found)).1 =
    (foldl (visit_pure (list_of_ids self)) (arrays0 mem2 (list_of_ids self))
       (observations found)).1).
  { destruct (arrays0_length mem1 (list_of_ids self)) as [H11 _].
    destruct (arrays0_length mem2 (list_of_ids self)) as [H21 _].
    destruct (fold_length (list_of_ids self) (observations found)
                (arrays0 mem1 (list_of_ids self))) as [F1 _].
    destruct (fold_length (list_of_ids self) (observations found)
                (arrays0 mem2 (list_of_ids self))) as [F2 _].
    apply list_eq. intros r.
    destruct (decide (r < 4 * length (list_of_ids self))) as [Hr|Hr].
    2:{ rewrite !lookup_ge_None_2 by lia. done. }
    destruct (row_split r) as (k & j & -> & Hj).
    rewrite !fold_scene by lia.
    destruct (lookup_lt_is_Some_2 (list_of_ids self) k ltac:(lia)) as [id Hid].
    assert (Hidx : py_index id (list_of_ids self) = Some k).
    { apply py_index_lookup; [done|]. intros k' Hk' Hid'.
      pose proof (NoDup_lookup _ _ _ _ Hnd Hid Hid'). lia. }
    assert (is_Some (last_obs (list_of_ids self) k (observations found))) as [q ->].
    { apply last_obs_is_Some. exists id. split; [|done].
      unfold observations. rewrite fst_zip by (by rewrite (det_wf_length found Hwf)).
      apply Hall. by eapply list_elem_of_lookup_2. }
    done. }
  cbn [mbind py_bind].
  destruct (foldl _ (arrays0 mem1 _) _) as [s1 m1].
  destruct (foldl _ (arrays0 mem2 _) _) as [s2 m2].
  simpl in *. by subst.
Qed.

Lemma PoseDetector_detect_all_seen_witness :
  PoseDetector_detect probe_solvePnP one_marker_detector mem_zeros sample_detection
    zero3 zero3 =
  PoseDetector_detect probe_solvePnP one_marker_detector mem_ones sample_detection
    zero3 zero3.
Proof.
  apply (PoseDetector_detect_all_seen probe_solvePnP one_marker_detector mem_zeros
           mem_ones sample_detection zero3 zero3).
  - reflexivity.
  - apply NoDup_singleton.
  - intros id ->%list_elem_of_singleton. unfold det_seen; simpl. left.
Defined.

End PointerFacts.

(** ** The filter at start-up *)

Module StartupFacts.
Import Zone Policy Safety Samples MoreSamples ZoneFacts PolicyFacts PolicyMore.
Local Open Scope Z_scope.

Lemma count_of_app a b v : count_of (a ++ b) v = (count_of a v + count_of b v)%nat.
Proof. unfold count_of. by rewrite filter_app, length_app. Qed.

Lemma count_of_replicate n v w :
  count_of (replicate n v) w = if decide (v = w) then n else 0%nat.
Proof.
  induction n as [|n IH]; [by case_decide|].
  unfold count_of in *. cbn [replicate]. rewrite filter_cons.
  repeat case_decide; simpl; rewrite IH; congruence.
Qed.

(** From the initial filter, [n <= 10] stores of the same value fill the
    first [n] cells and leave the padding of -1 behind them. *)
Lemma buffer_start (n : nat) (z : Z) :
  (n ≤ 10)%nat →
  zone_filter (foldl store policy_init (replicate n z)) =
    replicate n z ++ replicate (10 - n) (-1).
Proof.
  intros Hn.
  destruct (store_fold_inv policy_init (replicate n z) policy_init_ok)
    as ([Hlen _] & _ & Hcells & Hrest).
  rewrite length_replicate in *. cbn [zone_filter_cnt policy_init plus] in *.
  apply list_eq. intros j.
  destruct (decide (j < n)%nat) as [Hj|Hj].
  - rewrite lookup_app_l by (rewrite length_replicate; lia).
    rewrite lookup_replicate_2 by done.
    rewrite <- (Nat.mod_small j 10) at 1 by lia.
    apply Hcells; [by apply lookup_replicate_2|lia].
  - rewrite lookup_app_r by (rewrite length_replicate; lia).
    rewrite length_replicate, Hrest.
    + unfold policy_init, zone_filter_size; cbn [zone_filter].
      destruct (decide (j < 10)%nat).
      * rewrite !lookup_replicate_2 by lia. done.
      * rewrite !lookup_ge_None_2 by (rewrite length_replicate; lia). done.
    + intros k Hk. rewrite Nat.mod_small by lia. lia.
Qed.

(** Start-up latency.  From the initial filter, while the same zone is
    touched again and again, the first five calls still return -1 (at
    five against five the smaller value, -1, wins) and the zone is
    returned from the sixth call on. *)
Theorem startup_latency m img (p : pt3) (k : nat) :
  0 ≤ raw_zone m img p →
  (Rabs (p.2) < 2)%R →
  (k < 10)%nat →
  ∃ zones self1 self2,
    pushes m img policy_init (replicate k p) = Ok (zones, self1) ∧
    push_gesture m img self1 p =
      Ok (if decide (k + 1 ≤ 5)%nat then -1 else raw_zone m img p, self2).
Proof.
  intros Hraw Hz Hk.
  destruct (pushes_state m img (replicate k p) policy_init policy_init_ok) as [zones Hrun].
  rewrite fmap_replicate in Hrun.
  set (z := raw_zone m img p) in *.
  set (self1 := foldl store policy_init (replicate k z)) in *.
  assert (Hok1 : policy_ok self1).
  { by destruct (store_fold_inv policy_init (replicate k z) policy_init_ok) as (? & _). }
  exists zones, self1, (pushed m img self1 p). split; [done|].
  rewrite push_gesture_eval by (destruct Hok1; lia).
  destruct (Rlt_dec _ _); [|lra]. do 2 f_equal.
  assert (Hbuf : zone_filter (pushed m img self1 p) =
                 replicate (k + 1) z ++ replicate (10 - (k + 1)) (-1)).
  { rewrite <- buffer_start by lia. unfold pushed, self1. fold z.
    by rewrite replicate_add, foldl_app. }
  rewrite Hbuf.
  set (B := replicate (k + 1) z ++ replicate (10 - (k + 1)) (-1)).
  assert (Hcz : count_of B z = (k + 1)%nat).
  { unfold B. rewrite count_of_app, !count_of_replicate.
    rewrite decide_True by done. rewrite decide_False by lia. lia. }
  assert (Hcm : count_of B (-1) = (10 - (k + 1))%nat).
  { unfold B. rewrite count_of_app, !count_of_replicate.
    rewrite decide_False by lia. by rewrite decide_True by done. }
  assert (HlenB : length B = 10%nat).
  { unfold B. rewrite length_app, !length_replicate. lia. }
  case_decide as Hfew.
  - assert (Hne : B ≠ []) by (intros HB; rewrite HB in HlenB; done).
    destruct (stats_mode_smallest B Hne) as (Hin & Hmax & Hmin).
    unfold B in Hin at 2.
    apply elem_of_app in Hin as [Hin|Hin]; apply elem_of_replicate in Hin as [Hm _];
      [|done].
    exfalso. specialize (Hmax (-1)). rewrite Hm, Hcz, Hcm in Hmax.
    specialize (Hmin (-1)). rewrite Hm, Hcz, Hcm in Hmin. lia.
  - apply stats_mode_majority. rewrite HlenB, Hcz. lia.
Qed.

Lemma startup_latency_witness :
  ∃ zones self1 self2,
    pushes two_zone_model two_zone_image policy_init (replicate 4 on_green)
      = Ok (zones, self1) ∧
    push_gesture two_zone_model two_zone_image self1 on_green =
      Ok (if decide (4 + 1 ≤ 5)%nat then -1
          else raw_zone two_zone_model two_zone_image on_green, self2).
Proof.
  apply (startup_latency two_zone_model two_zone_image on_green 4).
  - rewrite raw_zone_on_green. lia.
  - apply touching_origin_plane.
  - lia.
Defined.

End StartupFacts.
